(** * MBU_Pull_Term_Data_From_GO_ATS: queue population, flat taxonomy pull
      and recursive term pull, embedded from the Python sources

    - [processes/queue_handler.py]: [create_sort_key], [add_one],
      [concurrent_add];
    - [helpers/taxonomy.py]: [fetch_data], [insert_into_database],
      [get_taxononmy];
    - [helpers/term_data_handler.py]: [_get_child_terms],
      [_insert_term_data_to_sql], [pull_term_data_from_go_to_sql].

    Conventions of the embedding.
    - A Python [str] is a Rocq [string], one character per code point below
      256; [<] on [str] is then [String.ltb] (code-point order).
    - A Python [dict] is an association list in insertion order; its keys are
      pairwise distinct ([well_formed]).
    - "[str] or [None]" is [option string].
    - Calls to collaborators (HTTP, work queue, stored procedure) are answered
      by an oracle passed as an argument, and recorded in a trace of events.
    - An exception that leaves a function is the outcome [Raises e]. *)

From Stdlib Require Import List String Ascii Bool ZArith NArith QArith Lia.
From Stdlib Require Import Permutation Sorted DecimalString.
Import ListNotations.

Set Warnings "-register-all".

#[local] Open Scope list_scope.
#[local] Open Scope string_scope.

(** ** Python values *)

(** The JSON-serialisable Python values the program handles ([float] is not
    modelled). *)
Inductive pyobj : Type :=
| PyNone
| PyBool (b : bool)
| PyInt (n : Z)
| PyStr (s : string)
| PyList (l : list pyobj)
| PyDict (kvs : list (string * pyobj)).

(** Exceptions, by class. *)
Inductive exn : Type :=
| RequestException (msg : string)
| JSONDecodeError (msg : string)
| KeyError (key : string)
| TypeError (msg : string)
| ValueError (msg : string)
| RuntimeError (msg : string).

(** [bool(x)] for "[str] or [None]". *)
Definition truthy (x : option string) : bool :=
  match x with
  | None => false
  | Some s => negb (s =? "")
  end.

(** [str(x)], as in [f"{x}"], for "[str] or [None]". *)
Definition py_str (x : option string) : string :=
  match x with
  | None => "None"
  | Some s => s
  end.

(** [d.get(k)] on an association list: the first binding of [k]. *)
Fixpoint dict_get {V : Type} (k : string) (d : list (string * V)) : option V :=
  match d with
  | [] => None
  | (k', v) :: rest => if k' =? k then Some v else dict_get k rest
  end.

Fixpoint unique_keys (ks : list string) : bool :=
  match ks with
  | [] => true
  | k :: rest => negb (existsb (String.eqb k) rest) && unique_keys rest
  end.

(** Every dict inside the value has pairwise distinct keys. *)
Fixpoint well_formed (v : pyobj) : bool :=
  match v with
  | PyList l => forallb well_formed l
  | PyDict kvs =>
      unique_keys (map fst kvs) && forallb (fun kv => well_formed (snd kv)) kvs
  | _ => true
  end.

(** The same key-value mappings, whatever the insertion order of the keys:
    atoms of the same type and value, lists equal element by element, dicts
    with the same number of keys and the same data under every key.  (This is
    Python's [==] on values whose atoms have the same types.) *)
Fixpoint same_data (a b : pyobj) {struct a} : bool :=
  match a, b with
  | PyNone, PyNone => true
  | PyBool x, PyBool y => Bool.eqb x y
  | PyInt x, PyInt y => (x =? y)%Z
  | PyStr x, PyStr y => x =? y
  | PyList l, PyList l' =>
      (fix all2 (l l' : list pyobj) {struct l} : bool :=
         match l, l' with
         | [], [] => true
         | x :: r, y :: r' => same_data x y && all2 r r'
         | _, _ => false
         end) l l'
  | PyDict kvs, PyDict kvs' =>
      (List.length kvs =? List.length kvs')%nat &&
      (fix all (l : list (string * pyobj)) {struct l} : bool :=
         match l with
         | [] => true
         | (k, v) :: r =>
             match dict_get k kvs' with
             | Some v' => same_data v v'
             | None => false
             end && all r
         end) kvs
  | _, _ => false
  end.

(** ** Stable sorting by a string key: [sorted(l, key=key)] *)

(** [insert_by key x l] puts [x] in front of the first element whose key is
    not smaller than the key of [x]. *)
Fixpoint insert_by {A : Type} (key : A -> string) (x : A) (l : list A) : list A :=
  match l with
  | [] => [x]
  | y :: rest =>
      if String.ltb (key y) (key x) then y :: insert_by key x rest
      else x :: y :: rest
  end.

(** Stable: elements with equal keys keep their relative order. *)
Fixpoint sorted_by {A : Type} (key : A -> string) (l : list A) : list A :=
  match l with
  | [] => []
  | x :: rest => insert_by key x (sorted_by key rest)
  end.

(** ** [json.dumps(v, sort_keys=True, ensure_ascii=False)] *)

Definition dquote : ascii := ascii_of_nat 34.
Definition bslash : ascii := ascii_of_nat 92.

Definition hex_digit (n : N) : ascii :=
  if (n <? 10)%N then ascii_of_N (48 + n) else ascii_of_N (87 + n).

(** [ESCAPE_DCT] of [json.encoder]: the quote, the backslash and the control
    characters below 0x20 are escaped; with [ensure_ascii=False] every other
    character is copied. *)
Definition escape_char (c : ascii) : string :=
  let n := N_of_ascii c in
  if (n =? 34)%N then String bslash (String dquote "")
  else if (n =? 92)%N then String bslash (String bslash "")
  else if (n =? 8)%N then String bslash "b"
  else if (n =? 12)%N then String bslash "f"
  else if (n =? 10)%N then String bslash "n"
  else if (n =? 13)%N then String bslash "r"
  else if (n =? 9)%N then String bslash "t"
  else if (n <? 32)%N then
    String bslash ("u00" ++ String (hex_digit (n / 16)) (String (hex_digit (n mod 16)) ""))
  else String c "".

Fixpoint escape (s : string) : string :=
  match s with
  | EmptyString => ""
  | String c rest => escape_char c ++ escape rest
  end.

Definition encode_basestring (s : string) : string :=
  String dquote (escape s ++ String dquote "").

(** [sep.join(parts)]. *)
Fixpoint join (sep : string) (parts : list string) : string :=
  match parts with
  | [] => ""
  | [p] => p
  | p :: rest => p ++ sep ++ join sep rest
  end.

Definition int_repr (n : Z) : string := NilZero.string_of_int (Z.to_int n).

(** The encoder sorts the items of a dict ([sorted(dct.items())]: by key, the
    keys being distinct) and encodes each value; here each value is encoded
    first and the encoded items are sorted by the same keys, which yields the
    same text.  Separators are the defaults, [", "] and [": "]. *)
Fixpoint json_dumps (v : pyobj) : string :=
  match v with
  | PyNone => "null"
  | PyBool true => "true"
  | PyBool false => "false"
  | PyInt n => int_repr n
  | PyStr s => encode_basestring s
  | PyList l => "[" ++ join ", " (map json_dumps l) ++ "]"
  | PyDict kvs =>
      "{" ++
      join ", "
        (map (fun kv => encode_basestring (fst kv) ++ ": " ++ snd kv)
           (sorted_by fst (map (fun kv => (fst kv, json_dumps (snd kv))) kvs)))
      ++ "}"
  end.

(** ** processes/queue_handler.py *)

(** [create_sort_key]: the item as a JSON string with sorted keys. *)
Definition create_sort_key (item : pyobj) : string := json_dumps item.

(** [proces_arguments]: the catalog of jobs, in the order it is written. *)
Definition proces_arguments : list (string * list (string * pyobj)) :=
  [("go_pull_taxonomy_data_bor",
    [("process", PyStr "taxonomy");
     ("baseUrl", PyStr "https://ad.go.aarhuskommune.dk");
     ("caseType", PyStr "borgersager");
     ("viewId", PyStr "f8f14409-e2f6-452f-aeac-acc18b3e6b5c")]);
   ("go_pull_taxonomy_data_emn",
    [("process", PyStr "taxonomy");
     ("baseUrl", PyStr "https://ad.go.aarhuskommune.dk");
     ("caseType", PyStr "emnesager");
     ("viewId", PyStr "db7f8be3-a3cb-4ea2-b495-7eba638f3fc7")]);
   ("go_pull_term_data_case_profile_bor",
    [("process", PyStr "term");
     ("baseUrl", PyStr "https://ad.go.aarhuskommune.dk");
     ("caseType", PyStr "borgersager");
     ("storedProcedure", PyStr "GO_CaseProfiles_Insert");
     ("objectType", PyStr "case profiles");
     ("startTermId", PyStr "dc87e41a-cab3-4286-8a1b-72ba6368cb90");
     ("termSetUuid", PyStr "8adfc3ee-428f-47fb-80aa-c285c28d3d93")]);
   ("go_pull_term_data_case_profile_emn",
    [("process", PyStr "term");
     ("baseUrl", PyStr "https://ad.go.aarhuskommune.dk");
     ("caseType", PyStr "emnesager");
     ("storedProcedure", PyStr "GO_CaseProfiles_Insert");
     ("objectType", PyStr "case profiles");
     ("startTermId", PyStr "9cd80176-977f-4d4b-9073-7bfb9361afe0");
     ("termSetUuid", PyStr "b52da1e5-209d-4ed6-b923-6d590072aa49")]);
   ("go_pull_term_data_departments",
    [("process", PyStr "term");
     ("baseUrl", PyStr "https://ad.go.aarhuskommune.dk");
     ("caseType", PyStr "emnesager");
     ("storedProcedure", PyStr "GO_Departments_Insert");
     ("objectType", PyStr "departments");
     ("startTermId", PyStr "3239f2cb-1cac-4f10-8897-39d64127a2e2");
     ("termSetUuid", PyStr "62c5a7cc-eb6f-4704-a86f-c576c4bebcca")])].

(** [retrieve_items_for_queue]; [todays_date] is
    [datetime.today().date().isoformat()], and the catalog is an argument so
    that its iteration order can be varied. *)
Definition retrieve_items_for_queue (todays_date : string)
    (catalog : list (string * list (string * pyobj))) : list (list (string * pyobj)) :=
  let references := map (fun entry => todays_date ++ "_" ++ fst entry) catalog in
  let data := map snd catalog in
  map (fun rd => [("reference", PyStr (fst rd)); ("data", PyDict (snd rd))])
    (combine references data).

(** [helpers/config.py] is not part of the sources at hand: its three
    constants are a parameter of the model. *)
Record config : Type := {
  MAX_CONCURRENCY : Z;
  MAX_RETRIES : Z;
  RETRY_BASE_DELAY : Q
}.

(** The work queue collaborator: [workqueue data reference attempt] is what
    the [attempt]-th call [workqueue.add_item(data, reference)] of an item
    does, [None] when it returns and [Some e] when it raises [e]. *)
Definition workqueue : Type := pyobj -> string -> Z -> option exn.

Inductive queue_event : Type :=
| Acquire                                   (* entering [async with sem] *)
| Release                                   (* leaving [async with sem] *)
| AddItem (data : pyobj) (reference : string)
| Sleep (seconds : Q)                       (* [await asyncio.sleep(backoff)] *)
| LogAdded (reference : string)             (* logger.info *)
| LogRetry (reference : string) (attempt max_retries : Z) (backoff : Q) (e : exn)
                                            (* logger.warning *)
| LogFailed (reference : string) (attempt : Z) (e : exn)
                                            (* logger.error *)
| LogNoItems                                (* logger.info "No new items to add." *)
| LogProcessing (n : nat)                   (* logger.info "Processing %d items ..." *)
| LogSummary (successes failures total : Z) (* logger.info "Summary: ..." *).

Inductive result (A : Type) : Type :=
| Returns (a : A)
| Raises (e : exn).
Arguments Returns {A} a.
Arguments Raises {A} e.

(** [bool(v)]. *)
Definition py_bool (v : pyobj) : bool :=
  match v with
  | PyNone => false
  | PyBool b => b
  | PyInt n => negb (n =? 0)%Z
  | PyStr s => negb (s =? "")
  | PyList l => match l with [] => false | _ => true end
  | PyDict kvs => match kvs with [] => false | _ => true end
  end.

(** [str(v)]; on a list or a dict it is [repr(v)], which is left to the
    parameter [py_repr]. *)
Definition str_of (py_repr : pyobj -> string) (v : pyobj) : string :=
  match v with
  | PyNone => "None"
  | PyBool true => "True"
  | PyBool false => "False"
  | PyInt n => int_repr n
  | PyStr s => s
  | PyList _ | PyDict _ => py_repr v
  end.

(** [range(lo, hi)]. *)
Definition py_range (lo hi : Z) : list Z :=
  map (fun i => (lo + Z.of_nat i)%Z) (seq 0 (Z.to_nat (hi - lo))).

(** [str(it.get("reference") or "")]. *)
Definition reference_of (py_repr : pyobj -> string) (it : list (string * pyobj)) : string :=
  match dict_get "reference" it with
  | Some v => if py_bool v then str_of py_repr v else ""
  | None => ""
  end.

(** [RETRY_BASE_DELAY * (2 ** (attempt - 1))]. *)
Definition backoff_delay (cfg : config) (attempt : Z) : Q :=
  (RETRY_BASE_DELAY cfg * inject_Z (2 ^ (attempt - 1)))%Q.

(** The body of [for attempt in range(1, MAX_RETRIES + 1)] in [add_one], on
    the attempts still to be made.  The result is [Some true] for [True],
    [Some false] for [False] and [None] when the loop ends without a
    [return]. *)
Fixpoint attempt_loop (cfg : config) (wq : workqueue) (data : pyobj)
    (reference : string) (attempts : list Z) : option bool * list queue_event :=
  match attempts with
  | [] => (None, [])
  | attempt :: later =>
      match wq data reference attempt with
      | None => (Some true, [AddItem data reference; LogAdded reference])
      | Some e =>
          if (MAX_RETRIES cfg <=? attempt)%Z then
            (Some false, [AddItem data reference; LogFailed reference attempt e])
          else
            let backoff := backoff_delay cfg attempt in
            let (r, t) := attempt_loop cfg wq data reference later in
            (r, AddItem data reference
                :: LogRetry reference attempt (MAX_RETRIES cfg) backoff e
                :: Sleep backoff :: t)
      end
  end.

(** [add_one]: the whole retry loop runs inside [async with sem]. *)
Definition add_one (cfg : config) (py_repr : pyobj -> string) (wq : workqueue)
    (it : list (string * pyobj)) : option bool * list queue_event :=
  let reference := reference_of py_repr it in
  let data := PyDict [("item", PyDict it)] in
  let (r, t) := attempt_loop cfg wq data reference (py_range 1 (MAX_RETRIES cfg + 1)) in
  (r, Acquire :: t ++ [Release])%list.

(** What one call of [concurrent_add] does: the events before the tasks are
    started, the tasks handed to [asyncio.gather] (each with its result and
    its own events, in the order of [sorted_items]; how the scheduler
    interleaves them is not fixed here), and the events after the tasks have
    all finished.  The function itself returns [None]. *)
Record dispatch : Type := {
  before_tasks : list queue_event;
  tasks : list (option bool * list queue_event);
  after_tasks : list queue_event
}.

Definition is_success (r : option bool) : bool :=
  match r with
  | Some true => true
  | _ => false
  end.

(** [sorted(items, key=create_sort_key)]. *)
Definition sorted_items (items : list (list (string * pyobj))) : list (list (string * pyobj)) :=
  sorted_by (fun i => create_sort_key (PyDict i)) items.

(** [concurrent_add].  [asyncio.Semaphore(n)] raises [ValueError] on a
    negative [n]. *)
Definition concurrent_add (cfg : config) (py_repr : pyobj -> string) (wq : workqueue)
    (items : list (list (string * pyobj))) : result dispatch :=
  if (MAX_CONCURRENCY cfg <? 0)%Z then
    Raises (ValueError "Semaphore initial value must be >= 0")
  else
    match items with
    | [] => Returns {| before_tasks := [LogNoItems]; tasks := []; after_tasks := [] |}
    | _ =>
        let sorted_items := sorted_items items in
        let results := map (add_one cfg py_repr wq) sorted_items in
        let successes := Z.of_nat (List.length (filter is_success (map fst results))) in
        let failures := (Z.of_nat (List.length results) - successes)%Z in
        Returns {| before_tasks := [LogProcessing (List.length sorted_items)];
                   tasks := results;
                   after_tasks :=
                     [LogSummary successes failures (Z.of_nat (List.length results))] |}
    end.

(** ** Collaborators of the two pulls *)

(** The named parameters of a stored-procedure call:
    name -> (type tag, value). *)
Definition sql_params : Type := list (string * (string * string)).

(** The result dict of [execute_stored_procedure]. *)
Record sp_result : Type := {
  success : bool;
  error_message : string
}.

(** The database collaborator:
    [execute_stored_procedure(connection_string, stored_procedure, params)]. *)
Definition database : Type := option string -> string -> sql_params -> sp_result.

Inductive io_event : Type :=
| Post (url : string) (headers : list (string * string)) (body : option pyobj)
| Execute (connection_string : option string) (stored_procedure : string)
          (params : sql_params)
| PrintParams (params : sql_params)         (* [print(params)] *)
| Print (msg : string).

(** A computation that records events and returns or raises; [None] when the
    replies (or the fuel) given to it run out before it finishes. *)
Definition run (A : Type) : Type := option (list io_event * result A).

Definition ret {A : Type} (a : A) : run A := Some ([], Returns a).
Definition raise {A : Type} (e : exn) : run A := Some ([], Raises e).
Definition emit (ev : io_event) : run unit := Some ([ev], Returns tt).

Definition bind {A B : Type} (m : run A) (k : A -> run B) : run B :=
  match m with
  | None => None
  | Some (t, Raises e) => Some (t, Raises e)
  | Some (t, Returns a) =>
      match k a with
      | None => None
      | Some (t', r) => Some ((t ++ t')%list, r)
      end
  end.

Notation "x <- m ;; k" := (bind m (fun x => k))
  (at level 61, m at next level, right associativity).
Notation "m ;;; k" := (bind m (fun _ => k))
  (at level 61, right associativity).

(** [str(e)]; for a [KeyError] it is the [repr] of the key (the keys here have
    no quote in them). *)
Definition exn_str (e : exn) : string :=
  match e with
  | KeyError k => "'" ++ k ++ "'"
  | RequestException m | JSONDecodeError m | TypeError m
  | ValueError m | RuntimeError m => m
  end.

(** [d[k]]. *)
Definition subscript {V : Type} (d : list (string * V)) (k : string) : run V :=
  match dict_get k d with
  | Some v => ret v
  | None => raise (KeyError k)
  end.

(** ** helpers/taxonomy.py *)

(** A decoded page of the list: the fields ["Row"] and ["NextHref"] are
    present or not. *)
Record page : Type := {
  Row : option (list (list (string * string)));
  NextHref : option string
}.

(** What the server does with one [session.post(url)] followed by
    [response.json()]. *)
Inductive http_reply : Type :=
| PostFails (e : exn)        (* [session.post] raises *)
| NotOk (text : string)      (* a response with [response.ok] false *)
| JsonFails (e : exn)        (* [response.json()] raises *)
| JsonPage (p : page).

(** [fetch_data(session, url)] against the next reply of the server. *)
Definition fetch_data (reply : http_reply) (url : string) : run page :=
  emit (Post url [] None) ;;;
  match reply with
  | PostFails e => raise e
  | NotOk text => raise (RequestException ("Error fetching data: " ++ text))
  | JsonFails e => raise e
  | JsonPage p => ret p
  end.

(** [item.get(k, "")]. *)
Definition get_or_empty (item : list (string * string)) (k : string) : string :=
  match dict_get k item with
  | Some v => v
  | None => ""
  end.

(** [insert_into_database]. *)
Fixpoint insert_into_database (db : database) (connection_string : option string)
    (stored_procedure : string) (data : list (list (string * string)))
    (case_type : string) : list io_event :=
  match data with
  | [] => []
  | item :: rest =>
      let params :=
        [("ID", ("str", get_or_empty item "ID"));
         ("Title", ("str", get_or_empty item "Title"));
         ("IdForTermStore", ("str", get_or_empty item "IdForTermStore"));
         ("IdForTerm", ("str", get_or_empty item "IdForTerm"));
         ("IdForTermSet", ("str", get_or_empty item "IdForTermSet"));
         ("Path", ("str", get_or_empty item "Path"));
         ("CaseType", ("str", case_type))] in
      let result := db connection_string stored_procedure params in
      (PrintParams params :: Execute connection_string stored_procedure params
       :: (if success result then []
           else [Print ("Failed to insert record: " ++ error_message result)])
       ++ insert_into_database db connection_string stored_procedure rest case_type)%list
  end.

(** The [while next_url:] loop of [get_taxononmy], against the replies the
    server gives in turn; it returns [all_rows]. *)
Fixpoint fetch_pages (replies : list http_reply) (base_url endpoint : string)
    (next_url : option string) (all_rows : list (list (string * string)))
    : run (list (list (string * string))) :=
  if truthy next_url then
    match replies with
    | [] => None
    | reply :: later =>
        json_data <- fetch_data reply (py_str next_url) ;;
        emit (Print ("Fetched data from: " ++ py_str next_url)) ;;;
        let all_rows :=
          match Row json_data with
          | Some rows => (all_rows ++ rows)%list
          | None => all_rows
          end in
        let next_url :=
          match NextHref json_data with
          | Some href => Some (base_url ++ endpoint ++ href)
          | None => None
          end in
        fetch_pages later base_url endpoint next_url all_rows
    end
  else ret all_rows.

(** The [except] clauses of [get_taxononmy]; any other exception leaves the
    function. *)
Definition handle_taxonomy (e : exn) : run unit :=
  match e with
  | RequestException _ => emit (Print ("Request error occurred: " ++ exn_str e))
  | KeyError _ => emit (Print ("Missing key in credentials: " ++ exn_str e))
  | TypeError _ => emit (Print ("Type error: " ++ exn_str e))
  | JSONDecodeError _ => emit (Print ("JSON decode error: " ++ exn_str e))
  | _ => raise e
  end.

(** [try: body except ...: handler]. *)
Definition try_except {A : Type} (body : run A) (handler : exn -> run A) : run A :=
  match body with
  | None => None
  | Some (t, Returns a) => Some (t, Returns a)
  | Some (t, Raises e) =>
      match handler e with
      | None => None
      | Some (t', r) => Some ((t ++ t')%list, r)
      end
  end.

Definition taxonomy_endpoint (case_type : string) : string :=
  "/" ++ case_type ++ "/_api/web/GetList('%2F" ++ case_type
  ++ "%2FLists%2FTaxonomyHiddenList')/RenderListDataAsStream".

(** [get_taxononmy].  The two API credentials are read before the [try]
    statement, the connection string inside it. *)
Definition get_taxononmy (replies : list http_reply) (db : database)
    (credentials : list (string * option string)) (case_type : string)
    (view_id : option string) (base_url : string) : run unit :=
  let endpoint := taxonomy_endpoint case_type in
  let initial_url := endpoint ++ "?Paged=TRUE&p_ID=0&PageFirstRow=31&View=" ++ py_str view_id in
  let full_url := base_url ++ initial_url in
  _username <- subscript credentials "go_api_username" ;;
  _password <- subscript credentials "go_api_password" ;;
  try_except
    (all_rows <- fetch_pages replies base_url endpoint (Some full_url) [] ;;
     conn <- subscript credentials "sql_conn_string" ;;
     Some (insert_into_database db conn "rpa.GO_TaxonomyList_Insert" all_rows case_type,
           Returns tt) ;;;
     emit (Print "All rows have been inserted into the database."))
    handle_taxonomy.

(** ** helpers/term_data_handler.py *)

(** A record of ["Content"]: what [node.get("Nm")], [node.get("Id")] and
    [node.get("Cc")] find ([None] for a key that is absent). *)
Record term_record : Type := {
  Nm : option string;
  Id : option string;
  Cc : option Z
}.

(** A decoded reply of the term service: the object may have a field ["d"],
    which may have a field ["Content"], a list of records. *)
Definition json_data : Type := option (option (list term_record)).

(** The term service: what [requests.post(url, headers, json=body)] followed
    by [raise_for_status()] and [json()] gives, an exception or the decoded
    reply. *)
Definition term_service : Type :=
  string -> list (string * string) -> pyobj -> exn + json_data.

(** [APIClient.post_data]: a [RequestException] is printed and turned into
    [None]. *)
Definition post_data (api_client : term_service) (url : string)
    (headers : list (string * string)) (body : pyobj) : run (option json_data) :=
  emit (Post url headers (Some body)) ;;;
  match api_client url headers body with
  | inr reply => ret (Some reply)
  | inl (RequestException m) =>
      emit (Print ("Request failed. Error message: " ++ m)) ;;; ret None
  | inl e => raise e
  end.

(** A node of the tree the builder returns: a dict whose entries other than
    ["Children"] hold a [str] or [None], and whose entry ["Children"], when
    there is one, holds a list of such dicts. *)
Inductive term_dict : Type :=
| TermDict (attrs : list (string * option string)) (children : option (list term_dict)).

Definition attrs_of (d : term_dict) : list (string * option string) :=
  match d with TermDict a _ => a end.

Definition children_of (d : term_dict) : option (list term_dict) :=
  match d with TermDict _ c => c end.

(** [d.get(k)] for a key other than ["Children"]. *)
Definition attr (d : term_dict) (k : string) : option string :=
  match dict_get k (attrs_of d) with
  | Some v => v
  | None => None
  end.

(** [bool(d)]: a dict is true when it has a key. *)
Definition dict_bool (d : term_dict) : bool :=
  match d with
  | TermDict [] None => false
  | _ => true
  end.

(** [x["Children"]] where [x] is a dict or [None]. *)
Definition subscript_children (x : option term_dict) : run (list term_dict) :=
  match x with
  | None => raise (TypeError "'NoneType' object is not subscriptable")
  | Some (TermDict _ (Some cs)) => ret cs
  | Some (TermDict _ None) => raise (KeyError "Children")
  end.

Definition opt_str (x : option string) : pyobj :=
  match x with
  | None => PyNone
  | Some s => PyStr s
  end.

Definition zero_uuid : string := "00000000-0000-0000-0000-000000000000".

(** The request body of [_get_child_terms]. *)
Definition child_terms_body (parent_id_bool : bool) (parent_uuid : option string)
    (term_set_uuid : string) : pyobj :=
  PyDict
    ([("guid", opt_str parent_uuid);
      ("includeDeprecated", PyBool true);
      ("includeNoneTaggableTermset", PyBool true);
      ("lcid", PyInt 1030);
      ("listId", PyStr zero_uuid);
      ("sspId", PyStr "fa62fa7306a44d3fac304c119cbd4bd7");
      ("webId", PyStr zero_uuid);
      ("includeCurrentChild", PyBool true);
      ("currentChildId", PyStr zero_uuid);
      ("pagingForward", PyBool true);
      ("pageLimit", PyInt 2000)]
     ++ (if negb parent_id_bool then [("termsetId", PyStr term_set_uuid)] else []))%list.

Definition child_terms_url (parent_id_bool : bool) (base_url case_type : string) : string :=
  if parent_id_bool then
    base_url ++ "/" ++ case_type
    ++ "/_vti_bin/taxonomyinternalservice.json/GetChildTermsInTermSetWithPaging"
  else
    base_url ++ "/" ++ case_type
    ++ "/_vti_bin/taxonomyinternalservice.json/GetChildTermsInTermWithPaging".

(** [node.get("Cc", 0) > 0]. *)
Definition has_children (node : term_record) : bool :=
  match Cc node with
  | Some n => (0 <? n)%Z
  | None => (0 <? 0)%Z
  end.

(** The loop [for node in content] of [_get_child_terms]; [recurse] is the
    recursive call and [children] is [result["Children"]] so far. *)
Fixpoint each_node (recurse : option string -> run (option term_dict))
    (parent_uuid : option string) (content : list term_record)
    (children : list term_dict) : run (list term_dict) :=
  match content with
  | [] => ret children
  | node :: later =>
      let node_name := Nm node in
      let node_id := Id node in
      if truthy node_name && truthy node_id then
        let attrs := [("Name", node_name); ("Id", node_id); ("ParentId", parent_uuid)] in
        child <-
          (if has_children node then
             sub <- recurse node_id ;;
             cs <- subscript_children sub ;;
             ret (TermDict attrs (Some cs))
           else ret (TermDict attrs None)) ;;
        each_node recurse parent_uuid later (children ++ [child])%list
      else each_node recurse parent_uuid later children
  end.

(** [_get_child_terms].  The recursion follows the replies of the service, so
    the depth of the calls is bounded by [fuel]; the function returns [None]
    or the dict [{"Id": parent_uuid, "Children": [...]}]. *)
Fixpoint _get_child_terms (fuel : nat) (api_client : term_service)
    (headers : list (string * string)) (parent_uuid : option string)
    (term_set_uuid base_url case_type : string) : run (option term_dict) :=
  match fuel with
  | O => None
  | S fuel' =>
      let parent_id_bool := negb (truthy parent_uuid) in
      let body := child_terms_body parent_id_bool parent_uuid term_set_uuid in
      let url := child_terms_url parent_id_bool base_url case_type in
      json_data <- post_data api_client url headers body ;;
      match json_data with
      | Some (Some (Some content)) =>
          children <-
            each_node
              (fun node_id =>
                 _get_child_terms fuel' api_client headers node_id term_set_uuid
                   base_url case_type)
              parent_uuid content [] ;;
          ret (Some (TermDict [("Id", parent_uuid)] (Some children)))
      | _ => ret None
      end
  end.

(** [_insert_term_data_to_sql] on a dict.  The result of
    [execute_stored_procedure] is not looked at. *)
Fixpoint insert_term_dict (db : database) (data : term_dict)
    (sql_conn_string : option string) (term_set_uuid sql_stored_procedure : string)
    : list io_event :=
  if dict_bool data then
    let name := attr data "Name" in
    let uuid := attr data "Id" in
    let parent_uuid := attr data "ParentId" in
    let sql_data_params :=
      [("name", ("str", py_str name));
       ("uuid", ("str", py_str uuid));
       ("parent_uuid", ("str", py_str parent_uuid));
       ("term_set_uuid", ("str", term_set_uuid))] in
    let _ := db sql_conn_string ("rpa." ++ sql_stored_procedure) sql_data_params in
    Execute sql_conn_string ("rpa." ++ sql_stored_procedure) sql_data_params
    :: match data with
       | TermDict _ (Some cs) =>
           (fix each (cs : list term_dict) : list io_event :=
              match cs with
              | [] => []
              | child :: later =>
                  (insert_term_dict db child sql_conn_string term_set_uuid
                     sql_stored_procedure ++ each later)%list
              end) cs
       | TermDict _ None => []
       end
  else [].

(** [_insert_term_data_to_sql]: [data] is a dict or [None]. *)
Definition _insert_term_data_to_sql (db : database) (data : option term_dict)
    (sql_conn_string : option string) (term_set_uuid sql_stored_procedure : string)
    : list io_event :=
  match data with
  | None => []
  | Some d => insert_term_dict db d sql_conn_string term_set_uuid sql_stored_procedure
  end.

(** [pull_term_data_from_go_to_sql]; [form_digest] is what
    [api_client.get_form_digest] returns. *)
Definition pull_term_data_from_go_to_sql (fuel : nat) (api_client : term_service)
    (form_digest : option string) (db : database)
    (credentials : list (string * option string))
    (base_url case_type : string) (start_term_id : option string)
    (sql_stored_procedure term_set_uuid : string) : run unit :=
  _username <- subscript credentials "go_api_username" ;;
  _password <- subscript credentials "go_api_password" ;;
  if truthy form_digest then
    let headers := [("Content-Type", "application/json; charset=UTF-8");
                    ("X-RequestDigest", py_str form_digest)] in
    result <- _get_child_terms fuel api_client headers start_term_id term_set_uuid
                base_url case_type ;;
    conn <- subscript credentials "sql_conn_string" ;;
    Some (_insert_term_data_to_sql db result conn term_set_uuid sql_stored_procedure,
          Returns tt)
  else ret tt.

(** ** Notions used to state the properties *)

Definition is_attempt (e : queue_event) : bool :=
  match e with
  | AddItem _ _ => true
  | _ => false
  end.

(** The number of calls of [workqueue.add_item] in a trace. *)
Definition attempt_count (t : list queue_event) : nat :=
  List.length (filter is_attempt t).

Definition is_permit_event (e : queue_event) : bool :=
  match e with
  | Acquire | Release => true
  | _ => false
  end.

(** For every [Sleep] of the trace, in order, whether the permit is held when
    it starts; [held] tells whether it is held at the start of the trace. *)
Fixpoint permit_at_sleeps (held : bool) (t : list queue_event) : list bool :=
  match t with
  | [] => []
  | Acquire :: rest => permit_at_sleeps true rest
  | Release :: rest => permit_at_sleeps false rest
  | Sleep _ :: rest => held :: permit_at_sleeps held rest
  | _ :: rest => permit_at_sleeps held rest
  end.

(** [le_str a b]: [b < a] does not hold. *)
Definition le_str (a b : string) : Prop := String.ltb b a = false.

Definition le_key {A : Type} (key : A -> string) (a b : A) : Prop :=
  le_str (key a) (key b).

(** The items of a dict with their values encoded. *)
Definition encoded_items (kvs : list (string * pyobj)) : list (string * string) :=
  map (fun kv => (fst kv, json_dumps (snd kv))) kvs.

(** The same items, given in another order and each with its keys inserted
    in another order. *)
Definition same_batch (items items2 : list (list (string * pyobj))) : Prop :=
  exists items', Permutation items items' /\
    Forall2 (fun i j => well_formed (PyDict i) = true /\ well_formed (PyDict j) = true /\
                        same_data (PyDict i) (PyDict j) = true) items' items2.

(** A summary [{successes, failures, total}] is reported by the call. *)
Definition reports_summary (d : dispatch) (successes failures total : Z) : Prop :=
  In (LogSummary successes failures total)
     (before_tasks d ++ List.concat (map snd (tasks d)) ++ after_tasks d)%list.

(** A record "carries both a name and an id": both are present and not
    empty. *)
Definition carries_name_and_id (r : term_record) : bool :=
  truthy (Nm r) && truthy (Id r).

(** A record "declares a non-zero child count". *)
Definition declares_children (r : term_record) : bool :=
  match Cc r with
  | Some n => negb (n =? 0)%Z
  | None => false
  end.

Definition natural_count (r : term_record) : Prop :=
  forall n, Cc r = Some n -> (0 <= n)%Z.

(** Child counts are counts: no reply of the service has a negative one. *)
Definition counts_are_natural (api_client : term_service) : Prop :=
  forall url headers body content r n,
    api_client url headers body = inr (Some (Some content)) ->
    In r content -> Cc r = Some n -> (0 <= n)%Z.

(** The tree fetch as the specification words it (section 4.2, steps 1 to 4):
    [Resolved p tree t] when fetching the children of [p] succeeds with some
    records, [tree] is the root [{Id: p, Children}] and [t] the requests made,
    in order; [Siblings p records children t] walks the records in the order
    of the reply: a record that does not carry both a name and an id gives no
    node, the others give the node [{Name, Id, ParentId}], and a record that
    declares children has its own subtree resolved, with all the requests
    this takes, before the next record is looked at. *)
Inductive Resolved (api_client : term_service) (headers : list (string * string))
    (term_set_uuid base_url case_type : string)
    : option string -> term_dict -> list io_event -> Prop :=
| Resolved_node : forall parent content children t,
    api_client (child_terms_url (negb (truthy parent)) base_url case_type) headers
      (child_terms_body (negb (truthy parent)) parent term_set_uuid)
    = inr (Some (Some content)) ->
    Siblings api_client headers term_set_uuid base_url case_type parent content children t ->
    Resolved api_client headers term_set_uuid base_url case_type parent
      (TermDict [("Id", parent)] (Some children))
      (Post (child_terms_url (negb (truthy parent)) base_url case_type) headers
         (Some (child_terms_body (negb (truthy parent)) parent term_set_uuid)) :: t)
with Siblings (api_client : term_service) (headers : list (string * string))
    (term_set_uuid base_url case_type : string)
    : option string -> list term_record -> list term_dict -> list io_event -> Prop :=
| Siblings_nil : forall parent,
    Siblings api_client headers term_set_uuid base_url case_type parent [] [] []
| Siblings_skip : forall parent r later children t,
    carries_name_and_id r = false ->
    Siblings api_client headers term_set_uuid base_url case_type parent later children t ->
    Siblings api_client headers term_set_uuid base_url case_type parent (r :: later) children t
| Siblings_leaf : forall parent r later children t,
    carries_name_and_id r = true ->
    declares_children r = false ->
    Siblings api_client headers term_set_uuid base_url case_type parent later children t ->
    Siblings api_client headers term_set_uuid base_url case_type parent (r :: later)
      (TermDict [("Name", Nm r); ("Id", Id r); ("ParentId", parent)] None :: children) t
| Siblings_subtree : forall parent r later children t sub_attrs sub_children sub_t,
    carries_name_and_id r = true ->
    declares_children r = true ->
    Resolved api_client headers term_set_uuid base_url case_type (Id r)
      (TermDict sub_attrs (Some sub_children)) sub_t ->
    Siblings api_client headers term_set_uuid base_url case_type parent later children t ->
    Siblings api_client headers term_set_uuid base_url case_type parent (r :: later)
      (TermDict [("Name", Nm r); ("Id", Id r); ("ParentId", parent)] (Some sub_children)
       :: children)
      (sub_t ++ t)%list.

Scheme Resolved_mut := Minimality for Resolved Sort Prop
  with Siblings_mut := Minimality for Siblings Sort Prop.

(** The nodes of a tree, each before its children, the children in order. *)
Fixpoint preorder (d : term_dict) : list term_dict :=
  d :: match d with
       | TermDict _ (Some cs) =>
           (fix each (cs : list term_dict) : list term_dict :=
              match cs with
              | [] => []
              | c :: later => (preorder c ++ each later)%list
              end) cs
       | TermDict _ None => []
       end.

(** The stored-procedure call made for one node. *)
Definition upsert_of (sql_conn_string : option string)
    (term_set_uuid sql_stored_procedure : string) (d : term_dict) : io_event :=
  Execute sql_conn_string ("rpa." ++ sql_stored_procedure)
    [("name", ("str", py_str (attr d "Name")));
     ("uuid", ("str", py_str (attr d "Id")));
     ("parent_uuid", ("str", py_str (attr d "ParentId")));
     ("term_set_uuid", ("str", term_set_uuid))].

Definition is_print (e : io_event) : bool :=
  match e with
  | Print _ => true
  | _ => false
  end.

Definition is_execute (e : io_event) : bool :=
  match e with
  | Execute _ _ _ => true
  | _ => false
  end.

(** A page that has a next cursor, a last page, and the rows of a page. *)
Definition page_with_next (pg : option (list (list (string * string))) * string) : http_reply :=
  JsonPage {| Row := fst pg; NextHref := Some (snd pg) |}.

Definition last_page (rows : option (list (list (string * string)))) : http_reply :=
  JsonPage {| Row := rows; NextHref := None |}.

Definition rows_of (rows : option (list (list (string * string)))) : list (list (string * string)) :=
  match rows with
  | Some l => l
  | None => []
  end.

(** The events of one successful fetch of [url]. *)
Definition fetch_events (url : string) : list io_event :=
  [Post url [] None; Print ("Fetched data from: " ++ url)].

(** [t] in front of the events of [m]. *)
Definition after_events {A : Type} (t : list io_event) (m : run A) : run A :=
  match m with
  | None => None
  | Some (t', r) => Some ((t ++ t')%list, r)
  end.

(** The exception that [fetch_data] raises on a reply, if any. *)
Definition reply_error (reply : http_reply) : option exn :=
  match reply with
  | PostFails e | JsonFails e => Some e
  | NotOk text => Some (RequestException ("Error fetching data: " ++ text))
  | JsonPage _ => None
  end.

(** The classes of exception that [get_taxononmy] has an [except] clause for. *)
Definition handled (e : exn) : bool :=
  match e with
  | RequestException _ | KeyError _ | TypeError _ | JSONDecodeError _ => true
  | _ => false
  end.

(** ** Concrete inputs used below *)

Definition example_config : config :=
  {| MAX_CONCURRENCY := 2; MAX_RETRIES := 3; RETRY_BASE_DELAY := 1 # 2 |}.

(** A [repr] for the examples, whose references are strings. *)
Definition example_repr : pyobj -> string := fun _ => "<repr>".

Definition always_failing : workqueue :=
  fun _ _ _ => Some (RuntimeError "queue unavailable").

Definition failing_once : workqueue :=
  fun _ _ attempt => if (attempt =? 1)%Z then Some (RuntimeError "queue unavailable") else None.

Definition example_item : list (string * pyobj) :=
  [("reference", PyStr "2026-01-01_go_pull_term_data_departments");
   ("data", PyDict [("process", PyStr "term"); ("caseType", PyStr "emnesager")])].

(** A term service with a root, two usable children (one of them with a
    child of its own) and a record without a name. *)
Definition example_service : term_service :=
  fun _ _ body =>
    match body with
    | PyDict kvs =>
        match dict_get "guid" kvs with
        | Some (PyStr g) =>
            if g =? "root" then
              inr (Some (Some [ {| Nm := Some "Skole"; Id := Some "a"; Cc := Some 1%Z |};
                                {| Nm := None; Id := Some "x"; Cc := Some 3%Z |};
                                {| Nm := Some "Dagtilbud"; Id := Some "b"; Cc := Some 0%Z |} ]))
            else if g =? "a" then
              inr (Some (Some [ {| Nm := Some "Elev"; Id := Some "a1"; Cc := None |} ]))
            else inl (RequestException "503 Server Error")
        | _ => inl (RequestException "400 Client Error")
        end
    | _ => inl (RequestException "400 Client Error")
    end.

(** A term service whose root answers, and whose every other request fails. *)
Definition outage_service : term_service :=
  fun _ _ body =>
    match body with
    | PyDict kvs =>
        match dict_get "guid" kvs with
        | Some (PyStr g) =>
            if g =? "root" then
              inr (Some (Some [ {| Nm := Some "Skole"; Id := Some "a"; Cc := Some 1%Z |} ]))
            else inl (RequestException "503 Server Error")
        | _ => inl (RequestException "400 Client Error")
        end
    | _ => inl (RequestException "400 Client Error")
    end.

Definition example_credentials : list (string * option string) :=
  [("go_api_username", Some "svc"); ("go_api_password", Some "secret");
   ("sql_conn_string", Some "Server=db")].

(** A database that rejects the record whose ["uuid"] or ["ID"] is ["a"]. *)
Definition rejecting_database : database :=
  fun _ _ params =>
    match dict_get "uuid" params, dict_get "ID" params with
    | Some (_, v), _ | None, Some (_, v) =>
        if v =? "a" then {| success := false; error_message := "constraint violated" |}
        else {| success := true; error_message := "" |}
    | None, None => {| success := true; error_message := "" |}
    end.

(** A root with two children. *)
Definition three_nodes : term_dict :=
  TermDict [("Id", Some "root")]
    (Some [TermDict [("Name", Some "Skole"); ("Id", Some "a"); ("ParentId", Some "root")] None;
           TermDict [("Name", Some "Dagtilbud"); ("Id", Some "b"); ("ParentId", Some "root")]
             None]).

(** Two pages with a next cursor, the second of them without any row. *)
Definition example_pages : list (option (list (list (string * string))) * string) :=
  [(Some [[("ID", "1"); ("Title", "Skole")]; [("ID", "2"); ("Title", "Dagtilbud")]],
    "?Paged=TRUE&p_ID=2");
   (Some [], "?Paged=TRUE&p_ID=4")].

(** The tree that [example_service] describes under ["root"]. *)
Definition example_tree : term_dict :=
  TermDict [("Id", Some "root")]
    (Some [TermDict [("Name", Some "Skole"); ("Id", Some "a"); ("ParentId", Some "root")]
             (Some [TermDict [("Name", Some "Elev"); ("Id", Some "a1"); ("ParentId", Some "a")]
                      None]);
           TermDict [("Name", Some "Dagtilbud"); ("Id", Some "b"); ("ParentId", Some "root")]
             None]).

(** ** Further notions: the queue *)

(** The delays of the [Sleep]s of a trace, in order. *)
Definition sleeps_of (t : list queue_event) : list Q :=
  flat_map (fun e => match e with Sleep d => [d] | _ => [] end) t.

(** The time slept in a trace, in all. *)
Definition total_delay (t : list queue_event) : Q :=
  fold_right Qplus 0%Q (sleeps_of t).

(** The sort key of a work item. *)
Definition item_key (i : list (string * pyobj)) : string := create_sort_key (PyDict i).

(** ** Further notions: the two pulls *)

(** The parameters that [insert_into_database] sends for one row. *)
Definition taxonomy_params (item : list (string * string)) (case_type : string) : sql_params :=
  [("ID", ("str", get_or_empty item "ID"));
   ("Title", ("str", get_or_empty item "Title"));
   ("IdForTermStore", ("str", get_or_empty item "IdForTermStore"));
   ("IdForTerm", ("str", get_or_empty item "IdForTerm"));
   ("IdForTermSet", ("str", get_or_empty item "IdForTermSet"));
   ("Path", ("str", get_or_empty item "Path"));
   ("CaseType", ("str", case_type))].

Definition opt_eqb (a b : option string) : bool :=
  match a, b with
  | None, None => true
  | Some x, Some y => x =? y
  | _, _ => false
  end.

(** A node under [parent] as the builder makes them: the keys ["Name"],
    ["Id"] and ["ParentId"] in this order, a name and an id that are not
    empty, the id of the parent under ["ParentId"], and the same for every
    node of its ["Children"], under its own id. *)
Fixpoint well_linked (parent : option string) (d : term_dict) : bool :=
  match d with
  | TermDict [(k1, Some name); (k2, Some id); (k3, p)] children =>
      (k1 =? "Name") && (k2 =? "Id") && (k3 =? "ParentId")
      && negb (name =? "") && negb (id =? "") && opt_eqb p parent
      && match children with
         | Some cs => forallb (well_linked (Some id)) cs
         | None => true
         end
  | _ => false
  end.

(** The request that [_get_child_terms] posts for [parent]. *)
Definition request_for (headers : list (string * string))
    (term_set_uuid base_url case_type : string) (parent : option string) : io_event :=
  Post (child_terms_url (negb (truthy parent)) base_url case_type) headers
    (Some (child_terms_body (negb (truthy parent)) parent term_set_uuid)).

(** The requests for the nodes of a tree that have a ["Children"] key, the
    nodes taken parents first. *)
Definition requests_of (headers : list (string * string))
    (term_set_uuid base_url case_type : string) (d : term_dict) : list io_event :=
  flat_map (fun n => match children_of n with
                     | Some _ => [request_for headers term_set_uuid base_url case_type
                                    (attr n "Id")]
                     | None => []
                     end)
    (preorder d).

(** What holds of a root returned for [parent] with the events [t]: its
    shape, the links of its nodes, and the requests made for it. *)
Definition built (headers : list (string * string))
    (term_set_uuid base_url case_type : string)
    (parent : option string) (t : list io_event) (tree : term_dict) : Prop :=
  exists cs,
    tree = TermDict [("Id", parent)] (Some cs)
    /\ forallb (well_linked parent) cs = true
    /\ t = requests_of headers term_set_uuid base_url case_type tree.

(** ** [APIClient.get_form_digest] *)

(** The classes of exception that come on top of [exn] here. *)
Inductive exception : Type :=
| Exn (e : exn)
| AttributeError (msg : string).

(** How a call ends: with a value, or with an exception that leaves it. *)
Inductive ended (A : Type) : Type :=
| Finished (a : A)
| Crashed (e : exception).
Arguments Finished {A} a.
Arguments Crashed {A} e.

(** The text [formDigestValue":"] that the pattern starts with. *)
Definition digest_marker : string :=
  "formDigestValue" ++ String dquote (String ":" (String dquote "")).

(** [s] without the prefix [p], when it starts with it. *)
Fixpoint strip_prefix (p s : string) : option string :=
  match p, s with
  | EmptyString, _ => Some s
  | String c p', String d s' => if Ascii.eqb c d then strip_prefix p' s' else None
  | String _ _, EmptyString => None
  end.

(** The characters of [s] up to its first quote, when it has one. *)
Fixpoint quoted_run (s : string) : option string :=
  match s with
  | EmptyString => None
  | String c rest =>
      if Ascii.eqb c dquote then Some ""
      else match quoted_run rest with
           | Some v => Some (String c v)
           | None => None
           end
  end.

(** The pattern [formDigestValue":"([^"]+)"] matched at the start of [s]: the
    marker, then characters other than the quote, one at least, then a quote;
    the result is the group. *)
Definition match_digest_here (s : string) : option string :=
  match strip_prefix digest_marker s with
  | Some rest =>
      match quoted_run rest with
      | Some v => if v =? "" then None else Some v
      | None => None
      end
  | None => None
  end.

(** [re.search(pattern, s)]: the match that starts leftmost; [None] when
    there is none. *)
Fixpoint search_digest (s : string) : option string :=
  match match_digest_here s with
  | Some v => Some v
  | None =>
      match s with
      | EmptyString => None
      | String _ rest => search_digest rest
      end
  end.

(** The page of the form digest: what [requests.post(url, ...)] followed by
    [raise_for_status()] gives, an exception or the text of the response. *)
Definition digest_page : Type := string -> exn + string.

(** [APIClient.get_form_digest].  Only a [RequestException] is caught; when
    the pattern is not found, [re.search] gives [None] and [.group(1)] raises
    an [AttributeError]. *)
Definition get_form_digest (page : digest_page) (url : string)
    : list io_event * ended (option string) :=
  let headers := [("Content-Type", "application/json; charset=UTF-8")] in
  match page url with
  | inr text =>
      match search_digest text with
      | Some v => ([Post url headers None], Finished (Some v))
      | None =>
          ([Post url headers None],
           Crashed (AttributeError "'NoneType' object has no attribute 'group'"))
      end
  | inl (RequestException m) =>
      ([Post url headers None; Print ("Request failed. Error message: " ++ m)],
       Finished None)
  | inl e => ([Post url headers None], Crashed (Exn e))
  end.

(** [pull_term_data_from_go_to_sql] with its call of [get_form_digest]: the
    two API credentials are read, the digest is asked for, and the rest of
    the function runs with what [get_form_digest] returned. *)
Definition pull_term_data_with_digest (fuel : nat) (page : digest_page)
    (api_client : term_service) (db : database)
    (credentials : list (string * option string)) (base_url case_type : string)
    (start_term_id : option string) (sql_stored_procedure term_set_uuid : string)
    : option (list io_event * ended unit) :=
  let url_form_digest := base_url ++ "/" ++ case_type ++ "/_layouts/15/termstoremanager.aspx" in
  match dict_get "go_api_username" credentials, dict_get "go_api_password" credentials with
  | None, _ => Some ([], Crashed (Exn (KeyError "go_api_username")))
  | Some _, None => Some ([], Crashed (Exn (KeyError "go_api_password")))
  | Some _, Some _ =>
      match get_form_digest page url_form_digest with
      | (t, Crashed e) => Some (t, Crashed e)
      | (t, Finished form_digest_value) =>
          match pull_term_data_from_go_to_sql fuel api_client form_digest_value db
                  credentials base_url case_type start_term_id sql_stored_procedure
                  term_set_uuid with
          | None => None
          | Some (t', Returns tt) => Some ((t ++ t')%list, Finished tt)
          | Some (t', Raises e) => Some ((t ++ t')%list, Crashed (Exn e))
          end
      end
  end.

(** Whether a string has a quote in it. *)
Fixpoint has_quote (s : string) : bool :=
  match s with
  | EmptyString => false
  | String c rest => Ascii.eqb c dquote || has_quote rest
  end.

(** [text] has the marker in it. *)
Definition has_marker (text : string) : Prop :=
  exists pre post, text = pre ++ digest_marker ++ post.

Definition is_log_added (e : queue_event) : bool :=
  match e with
  | LogAdded _ => true
  | _ => false
  end.

Definition is_log_failed (e : queue_event) : bool :=
  match e with
  | LogFailed _ _ _ => true
  | _ => false
  end.

(** * Properties *)

(** ** The order on strings *)

Lemma compare_not_gt_trans (a b c : string) :
  String.compare a b <> Gt -> String.compare b c <> Gt -> String.compare a c <> Gt.
Proof.
  revert b c.
  induction a as [|x a IH]; intros [|y b] [|z c]; simpl; try congruence.
  unfold Ascii.compare.
  destruct (N.compare_spec (N_of_ascii x) (N_of_ascii y)) as [Hxy|Hxy|Hxy];
    destruct (N.compare_spec (N_of_ascii y) (N_of_ascii z)) as [Hyz|Hyz|Hyz];
    destruct (N.compare_spec (N_of_ascii x) (N_of_ascii z)) as [Hxz|Hxz|Hxz];
    try congruence; try lia; intros; eauto.
Qed.

Lemma le_str_iff (a b : string) : le_str a b <-> String.compare a b <> Gt.
Proof.
  unfold le_str, String.ltb.
  rewrite (String.compare_antisym a b).
  destruct (String.compare b a); simpl; split; congruence.
Qed.

Lemma le_str_trans (a b c : string) : le_str a b -> le_str b c -> le_str a c.
Proof. rewrite !le_str_iff. apply compare_not_gt_trans. Qed.

Lemma le_str_antisym (a b : string) : le_str a b -> le_str b a -> a = b.
Proof.
  rewrite !le_str_iff. intros Hab Hba.
  apply String.compare_eq_iff.
  rewrite (String.compare_antisym a b) in Hab.
  destruct (String.compare a b) eqn:E1; destruct (String.compare b a) eqn:E2;
    simpl in *; try congruence;
    rewrite (String.compare_antisym a b), E2 in E1; simpl in E1; congruence.
Qed.

Lemma ltb_true_le_str (a b : string) : String.ltb a b = true -> le_str a b.
Proof.
  unfold le_str, String.ltb. rewrite (String.compare_antisym b a).
  destruct (String.compare a b); simpl; congruence.
Qed.

(** ** [sorted_by] sorts, permutes, and has one possible result *)

Section Sorting.
Context {A : Type} (key : A -> string).

Lemma insert_by_perm (x : A) (l : list A) : Permutation (x :: l) (insert_by key x l).
Proof.
  induction l as [|y l IH]; simpl; [reflexivity|].
  destruct (String.ltb (key y) (key x)); [|reflexivity].
  rewrite perm_swap. now apply perm_skip.
Qed.

Lemma sorted_by_perm (l : list A) : Permutation l (sorted_by key l).
Proof.
  induction l as [|x l IH]; simpl; [constructor|].
  rewrite <- insert_by_perm. now apply perm_skip.
Qed.

Lemma insert_by_sorted (x : A) (l : list A) :
  StronglySorted (le_key key) l -> StronglySorted (le_key key) (insert_by key x l).
Proof.
  induction 1 as [|y l Hs IH Hy]; simpl.
  - repeat constructor.
  - destruct (String.ltb (key y) (key x)) eqn:E.
    + constructor; [exact IH|].
      rewrite <- insert_by_perm. constructor; [|exact Hy].
      now apply ltb_true_le_str.
    + constructor; [now constructor|].
      constructor; [exact E|].
      rewrite Forall_forall in *. intros z Hz.
      eapply le_str_trans; [exact E|]. now apply Hy.
Qed.

Lemma sorted_by_sorted (l : list A) : StronglySorted (le_key key) (sorted_by key l).
Proof.
  induction l as [|x l IH]; simpl; [constructor|].
  now apply insert_by_sorted.
Qed.

(** Two sorted lists with the same elements are equal as soon as the key
    tells the elements apart. *)
Lemma sorted_perm_unique (l1 l2 : list A) :
  (forall x y, In x l1 -> In y l1 -> key x = key y -> x = y) ->
  StronglySorted (le_key key) l1 -> StronglySorted (le_key key) l2 ->
  Permutation l1 l2 -> l1 = l2.
Proof.
  revert l2.
  induction l1 as [|a l1 IH]; intros l2 Hinj H1 H2 HP.
  - apply Permutation_nil in HP. now subst.
  - destruct l2 as [|b l2]; [apply Permutation_sym, Permutation_nil in HP; discriminate|].
    inversion H1 as [|? ? Hs1 Ha]; subst.
    inversion H2 as [|? ? Hs2 Hb]; subst.
    rewrite Forall_forall in Ha, Hb.
    assert (Hab : a = b).
    { assert (Hin_a : In a (b :: l2)) by (eapply Permutation_in; [exact HP|now left]).
      assert (Hin_b : In b (a :: l1))
        by (eapply Permutation_in; [apply Permutation_sym; exact HP|now left]).
      destruct Hin_a as [->|Hin_a]; [reflexivity|].
      destruct Hin_b as [->|Hin_b]; [reflexivity|].
      apply Hinj; [now left|now right|].
      apply le_str_antisym; [now apply Ha|now apply Hb]. }
    subst b. f_equal.
    apply IH; auto.
    + intros x y Hx Hy. apply Hinj; now right.
    + eapply Permutation_cons_inv; exact HP.
Qed.

Lemma sorted_by_unique (l1 l2 : list A) :
  (forall x y, In x l1 -> In y l1 -> key x = key y -> x = y) ->
  Permutation l1 l2 -> sorted_by key l1 = sorted_by key l2.
Proof.
  intros Hinj HP.
  apply sorted_perm_unique; try apply sorted_by_sorted.
  - intros x y Hx Hy. apply Hinj; eapply Permutation_in;
      try (apply Permutation_sym, sorted_by_perm); assumption.
  - rewrite <- !sorted_by_perm. exact HP.
Qed.

Lemma map_insert_by (x : A) (l : list A) :
  map key (insert_by key x l) = insert_by (fun s => s) (key x) (map key l).
Proof.
  induction l as [|y l IH]; simpl; [reflexivity|].
  destruct (String.ltb (key y) (key x)); simpl; now rewrite ?IH.
Qed.

Lemma map_sorted_by (l : list A) :
  map key (sorted_by key l) = sorted_by (fun s => s) (map key l).
Proof.
  induction l as [|x l IH]; simpl; [reflexivity|].
  now rewrite map_insert_by, IH.
Qed.
End Sorting.

(** ** Induction on Python values *)

Section PyobjInduction.
Variable P : pyobj -> Prop.
Hypothesis HNone : P PyNone.
Hypothesis HBool : forall b, P (PyBool b).
Hypothesis HInt : forall n, P (PyInt n).
Hypothesis HStr : forall s, P (PyStr s).
Hypothesis HList : forall l, Forall P l -> P (PyList l).
Hypothesis HDict : forall kvs, Forall (fun kv => P (snd kv)) kvs -> P (PyDict kvs).

Fixpoint pyobj_nested_ind (v : pyobj) : P v :=
  match v with
  | PyNone => HNone
  | PyBool b => HBool b
  | PyInt n => HInt n
  | PyStr s => HStr s
  | PyList l =>
      HList l
        ((fix go (l : list pyobj) : Forall P l :=
            match l with
            | [] => Forall_nil _
            | x :: r => Forall_cons x (pyobj_nested_ind x) (go r)
            end) l)
  | PyDict kvs =>
      HDict kvs
        ((fix go (l : list (string * pyobj)) : Forall (fun kv => P (snd kv)) l :=
            match l with
            | [] => Forall_nil _
            | kv :: r => Forall_cons kv (pyobj_nested_ind (snd kv)) (go r)
            end) kvs)
  end.
End PyobjInduction.

(** ** Dicts as association lists *)

Lemma unique_keys_NoDup (ks : list string) : unique_keys ks = true -> NoDup ks.
Proof.
  induction ks as [|k ks IH]; simpl; intros H; [constructor|].
  apply andb_true_iff in H as [Hk Hks].
  constructor; [|now apply IH].
  intros Hin. apply negb_true_iff in Hk.
  assert (existsb (String.eqb k) ks = true); [|congruence].
  apply existsb_exists. exists k. split; [exact Hin|apply String.eqb_refl].
Qed.

Lemma dict_get_In {V : Type} (k : string) (d : list (string * V)) (v : V) :
  dict_get k d = Some v -> In (k, v) d.
Proof.
  induction d as [|[k' v'] d IH]; simpl; [discriminate|].
  destruct (String.eqb_spec k' k) as [->|Hne].
  - intros [= ->]. now left.
  - intros H. right. now apply IH.
Qed.

Lemma NoDup_map_injective {X Y : Type} (f : X -> Y) (l : list X) (x y : X) :
  NoDup (map f l) -> In x l -> In y l -> f x = f y -> x = y.
Proof.
  induction l as [|a l IH]; simpl; [contradiction|].
  intros Hnd Hx Hy Hf. inversion Hnd as [|? ? Hnotin Hnd']; subst.
  destruct Hx as [->|Hx], Hy as [->|Hy]; auto.
  - exfalso. apply Hnotin. rewrite Hf. now apply in_map.
  - exfalso. apply Hnotin. rewrite <- Hf. now apply in_map.
Qed.

(** ** The sort key does not depend on the insertion order of the keys *)

Lemma encoded_items_keys (kvs : list (string * pyobj)) :
  map fst (encoded_items kvs) = map fst kvs.
Proof. unfold encoded_items. rewrite map_map. now apply map_ext. Qed.

Lemma same_data_json_dumps (a : pyobj) :
  forall b, well_formed a = true -> well_formed b = true ->
            same_data a b = true -> json_dumps a = json_dumps b.
Proof.
  induction a as [| x | x | x | l IH | kvs IH] using pyobj_nested_ind;
    intros [| y | y | y | l' | kvs'] Wa Wb Hs; simpl in Hs; try discriminate.
  - reflexivity.
  - apply Bool.eqb_prop in Hs. now subst.
  - apply Z.eqb_eq in Hs. now subst.
  - apply String.eqb_eq in Hs. now subst.
  - simpl. simpl in Wa, Wb.
    enough (E : map json_dumps l = map json_dumps l') by now rewrite E.
    revert l' Wa Wb Hs.
    induction IH as [|x l Hx _ IHl]; intros [|y l'] Wa Wb Hs; simpl in *;
      try discriminate; try reflexivity.
    apply andb_true_iff in Wa as [Wx Wl].
    apply andb_true_iff in Wb as [Wy Wl'].
    apply andb_true_iff in Hs as [Hxy Hs].
    f_equal; [now apply Hx|now apply IHl].
  - simpl. fold (encoded_items kvs) (encoded_items kvs').
    enough (E : sorted_by fst (encoded_items kvs) = sorted_by fst (encoded_items kvs'))
      by now rewrite E.
    simpl in Wa, Wb.
    apply andb_true_iff in Wa as [Ua Wa].
    apply andb_true_iff in Wb as [Ub Wb].
    apply andb_true_iff in Hs as [Hlen Hall].
    apply Nat.eqb_eq in Hlen.
    apply unique_keys_NoDup in Ua.
    assert (Hnd : NoDup (map fst (encoded_items kvs)))
      by (now rewrite encoded_items_keys).
    apply sorted_by_unique.
    + intros x y Hx Hy Hk. eapply NoDup_map_injective; eauto.
    + apply NoDup_Permutation_bis.
      * eapply NoDup_map_inv; exact Hnd.
      * unfold encoded_items. rewrite !length_map. lia.
      * clear Hnd Ua Hlen.
        rewrite forallb_forall in Wb.
        induction IH as [|[k v] rest Hv _ IHrest]; simpl in *.
        { intros x []. }
        apply andb_true_iff in Wa as [Wv Wrest].
        apply andb_true_iff in Hall as [Hkv Hall].
        destruct (dict_get k kvs') as [v'|] eqn:Hget; [|discriminate].
        apply dict_get_In in Hget.
        intros x [<-|Hx]; [|now apply IHrest].
        rewrite (Hv v' Wv (Wb _ Hget) Hkv).
        unfold encoded_items.
        change (k, json_dumps v') with ((fun kv => (fst kv, json_dumps (snd kv))) (k, v')).
        now apply in_map.
Qed.

(** C9. Two payloads with the same key-value mappings, built with different
    insertion orders of their keys, have the same sort key, character for
    character.  Hence the order of submission does not depend on the order in
    which the catalog is iterated: two batches with the same items (in any
    order, with any insertion order of the keys) are submitted in the same
    succession of sort keys, and when the sort keys of a batch are pairwise
    distinct every permutation of it is sorted into the very same list. *)
Theorem create_sort_key_canonical :
  (forall a b : pyobj,
      well_formed a = true -> well_formed b = true -> same_data a b = true ->
      create_sort_key a = create_sort_key b)
  /\ (forall items items2 : list (list (string * pyobj)),
         same_batch items items2 ->
         map (fun i => create_sort_key (PyDict i)) (sorted_items items)
         = map (fun i => create_sort_key (PyDict i)) (sorted_items items2))
  /\ (forall items items' : list (list (string * pyobj)),
         Permutation items items' ->
         NoDup (map (fun i => create_sort_key (PyDict i)) items) ->
         sorted_items items = sorted_items items').
Proof.
  split; [|split].
  - intros a b. unfold create_sort_key. apply same_data_json_dumps.
  - intros items items2 (items' & HP & HF).
    unfold sorted_items. rewrite !map_sorted_by.
    apply sorted_by_unique; [auto|].
    rewrite (Permutation_map (fun i => create_sort_key (PyDict i)) HP).
    enough (E : map (fun i => create_sort_key (PyDict i)) items'
                = map (fun i => create_sort_key (PyDict i)) items2) by now rewrite E.
    clear HP.
    induction HF as [|i j l l' (Wi & Wj & Hs) _ IH]; [reflexivity|].
    rewrite !map_cons, IH. f_equal.
    unfold create_sort_key. now apply same_data_json_dumps.
  - intros items items' HP Hnd. unfold sorted_items.
    apply sorted_by_unique; [|exact HP].
    intros x y Hx Hy Hk.
    exact (NoDup_map_injective (fun i => create_sort_key (PyDict i)) items x y Hnd Hx Hy Hk).
Qed.

Lemma create_sort_key_canonical_witness :
  create_sort_key
    (PyDict [("process", PyStr "term"); ("caseType", PyStr "emnesager");
             ("tags", PyList [PyDict [("b", PyInt 2); ("a", PyNone)]])])
  = create_sort_key
      (PyDict [("tags", PyList [PyDict [("a", PyNone); ("b", PyInt 2)]]);
               ("caseType", PyStr "emnesager"); ("process", PyStr "term")])
  /\ sorted_items (retrieve_items_for_queue "2026-01-01" proces_arguments)
     = sorted_items (retrieve_items_for_queue "2026-01-01" (rev proces_arguments)).
Proof.
  split.
  - apply (proj1 create_sort_key_canonical); reflexivity.
  - apply (proj2 (proj2 create_sort_key_canonical)).
    + change (retrieve_items_for_queue "2026-01-01" (rev proces_arguments))
        with (rev (retrieve_items_for_queue "2026-01-01" proces_arguments)).
      apply Permutation_rev.
    + apply unique_keys_NoDup. vm_compute. reflexivity.
Defined.

(** ** [add_one]: permit, attempts and backoff *)

Lemma py_range_nil (lo hi : Z) : (hi <= lo)%Z -> py_range lo hi = [].
Proof.
  intros H. unfold py_range.
  replace (Z.to_nat (hi - lo)) with 0%nat by lia. reflexivity.
Qed.

Lemma py_range_cons (lo hi : Z) :
  (lo < hi)%Z -> py_range lo hi = lo :: py_range (lo + 1) hi.
Proof.
  intros H. unfold py_range.
  replace (Z.to_nat (hi - lo)) with (S (Z.to_nat (hi - (lo + 1)))) by lia.
  simpl. f_equal; [lia|].
  rewrite <- seq_shift, map_map.
  apply map_ext. intros i. lia.
Qed.

Lemma py_range_length (lo hi : Z) : List.length (py_range lo hi) = Z.to_nat (hi - lo).
Proof. unfold py_range. now rewrite length_map, length_seq. Qed.

Section AddOne.
Variables (cfg : config) (wq : workqueue) (data : pyobj) (reference : string).

Let loop (a : Z) : option bool * list queue_event :=
  attempt_loop cfg wq data reference (py_range a (MAX_RETRIES cfg + 1)).

Lemma attempt_loop_no_permit_event (attempts : list Z) :
  forallb (fun e => negb (is_permit_event e))
    (snd (attempt_loop cfg wq data reference attempts)) = true.
Proof.
  induction attempts as [|a l IH]; simpl; [reflexivity|].
  destruct (wq data reference a); [|reflexivity].
  destruct (MAX_RETRIES cfg <=? a)%Z; [reflexivity|].
  destruct (attempt_loop cfg wq data reference l). simpl in *. exact IH.
Qed.

Lemma attempt_loop_count (attempts : list Z) :
  (attempt_count (snd (attempt_loop cfg wq data reference attempts))
   <= List.length attempts)%nat.
Proof.
  unfold attempt_count.
  induction attempts as [|a l IH]; simpl; [lia|].
  destruct (wq data reference a); [|simpl; lia].
  destruct (MAX_RETRIES cfg <=? a)%Z; [simpl; lia|].
  destruct (attempt_loop cfg wq data reference l). simpl in *. lia.
Qed.

Lemma loop_success (a : Z) :
  (a <= MAX_RETRIES cfg)%Z -> wq data reference a = None ->
  loop a = (Some true, [AddItem data reference; LogAdded reference]).
Proof.
  intros Ha Hw. unfold loop. rewrite py_range_cons by lia. simpl. now rewrite Hw.
Qed.

Lemma loop_last_failure (e : exn) :
  wq data reference (MAX_RETRIES cfg) = Some e ->
  loop (MAX_RETRIES cfg)
  = (Some false, [AddItem data reference; LogFailed reference (MAX_RETRIES cfg) e]).
Proof.
  intros Hw. unfold loop. rewrite py_range_cons by lia. simpl.
  rewrite Hw, Z.leb_refl. reflexivity.
Qed.

Lemma loop_retry (a : Z) (e : exn) :
  (a < MAX_RETRIES cfg)%Z -> wq data reference a = Some e ->
  loop a
  = (fst (loop (a + 1)),
     AddItem data reference
     :: LogRetry reference a (MAX_RETRIES cfg) (backoff_delay cfg a) e
     :: Sleep (backoff_delay cfg a) :: snd (loop (a + 1))).
Proof.
  intros Ha Hw. unfold loop. rewrite (py_range_cons a) by lia. simpl.
  rewrite Hw. replace (MAX_RETRIES cfg <=? a)%Z with false by lia.
  now destruct (attempt_loop cfg wq data reference _).
Qed.

Lemma loop_starts_with_attempt (a : Z) :
  (a <= MAX_RETRIES cfg)%Z ->
  exists post, snd (loop a) = AddItem data reference :: post.
Proof.
  intros Ha. unfold loop. rewrite py_range_cons by lia. simpl.
  destruct (wq data reference a); [|simpl; eauto].
  destruct (MAX_RETRIES cfg <=? a)%Z; [simpl; eauto|].
  destruct (attempt_loop cfg wq data reference _). simpl. eauto.
Qed.

(** The sleep between attempt [i] and attempt [i + 1]. *)
Lemma loop_sleep_between (k : Z) (n : nat) :
  (forall i, 1 <= i <= k -> wq data reference i <> None)%Z ->
  forall a i, (1 <= a)%Z -> (a <= i <= k)%Z -> (i < MAX_RETRIES cfg)%Z ->
    Z.to_nat (i - a) = n ->
    exists pre e post,
      snd (loop a)
      = (pre ++ AddItem data reference
             :: LogRetry reference i (MAX_RETRIES cfg) (backoff_delay cfg i) e
             :: Sleep (backoff_delay cfg i)
             :: AddItem data reference :: post)%list
      /\ attempt_count pre = Z.to_nat (i - a).
Proof.
  intros Hfail. induction n as [|n IH]; intros a i H1 Hai HiM Hn.
  - assert (i = a) by lia. subst i.
    destruct (wq data reference a) as [e|] eqn:Hw; [|exfalso; apply (Hfail a); [lia|exact Hw]].
    rewrite (loop_retry a e) by (lia || assumption). simpl.
    destruct (loop_starts_with_attempt (a + 1)) as [post Hpost]; [lia|].
    exists [], e, post. rewrite Hpost. split; [reflexivity|].
    replace (a - a)%Z with 0%Z by lia. reflexivity.
  - destruct (wq data reference a) as [e|] eqn:Hw; [|exfalso; apply (Hfail a); [lia|exact Hw]].
    rewrite (loop_retry a e) by (lia || assumption). simpl.
    destruct (IH (a + 1)%Z i) as (pre & e' & post & Heq & Hcount); try lia.
    exists (AddItem data reference
            :: LogRetry reference a (MAX_RETRIES cfg) (backoff_delay cfg a) e
            :: Sleep (backoff_delay cfg a) :: pre), e', post.
    rewrite Heq. split; [reflexivity|].
    unfold attempt_count in *. simpl. rewrite Hcount. lia.
Qed.

(** When every attempt fails the loop ends in the last one. *)
Lemma loop_exhausted (n : nat) :
  forall a, (1 <= a <= MAX_RETRIES cfg)%Z ->
    (forall i, a <= i <= MAX_RETRIES cfg -> wq data reference i <> None)%Z ->
    Z.to_nat (MAX_RETRIES cfg - a) = n ->
    exists pre e,
      wq data reference (MAX_RETRIES cfg) = Some e
      /\ loop a = (Some false,
                   (pre ++ [AddItem data reference;
                            LogFailed reference (MAX_RETRIES cfg) e])%list)
      /\ attempt_count pre = Z.to_nat (MAX_RETRIES cfg - a).
Proof.
  induction n as [|n IH]; intros a Ha Hfail Hn.
  - assert (a = MAX_RETRIES cfg) by lia. subst a.
    destruct (wq data reference (MAX_RETRIES cfg)) as [e|] eqn:Hw;
      [|exfalso; apply (Hfail (MAX_RETRIES cfg)); [lia|exact Hw]].
    exists [], e. rewrite (loop_last_failure e Hw).
    replace (MAX_RETRIES cfg - MAX_RETRIES cfg)%Z with 0%Z by lia. auto.
  - destruct (wq data reference a) as [e|] eqn:Hw; [|exfalso; apply (Hfail a); [lia|exact Hw]].
    destruct (IH (a + 1)%Z) as (pre & e' & Hlast & Heq & Hcount); try lia.
    { intros i Hi. apply Hfail. lia. }
    exists (AddItem data reference
            :: LogRetry reference a (MAX_RETRIES cfg) (backoff_delay cfg a) e
            :: Sleep (backoff_delay cfg a) :: pre), e'.
    rewrite (loop_retry a e) by (lia || assumption). rewrite Heq. simpl.
    repeat split; auto.
    unfold attempt_count in *. simpl. rewrite Hcount. lia.
Qed.
End AddOne.

Lemma permit_at_sleeps_held (body : list queue_event) :
  forallb (fun e => negb (is_permit_event e)) body = true ->
  forallb (fun b => b) (permit_at_sleeps true (body ++ [Release])%list) = true.
Proof.
  induction body as [|e body IH]; simpl; [reflexivity|].
  intros H. apply andb_true_iff in H as [He Hb].
  destruct e; simpl in *; try discriminate; auto.
Qed.

(** C1, as the claim states it, fails: with one failed attempt the task sleeps
    while it holds the permit. *)
Lemma add_one_sleeps_holding_permit :
  forallb negb
    (permit_at_sleeps false
       (snd (add_one example_config example_repr failing_once example_item)))
  = false.
Proof. reflexivity. Qed.

(** C1, amended. A task acquires the permit once, before its first attempt,
    and releases it once, after its last: every attempt and every backoff
    sleep in between happens with the permit held. *)
Theorem add_one_holds_permit_throughout (cfg : config) (py_repr : pyobj -> string)
    (wq : workqueue) (it : list (string * pyobj)) :
  exists body,
    snd (add_one cfg py_repr wq it) = (Acquire :: body ++ [Release])%list
    /\ forallb (fun e => negb (is_permit_event e)) body = true
    /\ forallb (fun b => b) (permit_at_sleeps false (snd (add_one cfg py_repr wq it))) = true.
Proof.
  unfold add_one.
  pose proof (attempt_loop_no_permit_event cfg wq (PyDict [("item", PyDict it)])
                (reference_of py_repr it) (py_range 1 (MAX_RETRIES cfg + 1))) as H.
  destruct (attempt_loop cfg wq _ _ _) as [r t]. simpl in *.
  exists t. repeat split; auto.
  now apply permit_at_sleeps_held.
Qed.

(** C4. When the first [k] attempts of an item fail: for every [i <= k] below
    [MAX_RETRIES], attempt [i] is followed by the retry warning, one sleep of
    [RETRY_BASE_DELAY * 2 ^ (i - 1)] and then attempt [i + 1]; the attempts
    never number more than [MAX_RETRIES]; and when attempt [MAX_RETRIES] fails
    too, the item ends as failed ([False]), the error is logged with the
    reference, the attempt count and the exception, and nothing follows but
    the release of the permit. *)
Theorem add_one_backoff_schedule (cfg : config) (py_repr : pyobj -> string)
    (wq : workqueue) (it : list (string * pyobj)) (k : Z) :
  let reference := reference_of py_repr it in
  let data := PyDict [("item", PyDict it)] in
  (forall i, 1 <= i <= k -> wq data reference i <> None)%Z ->
  (forall i, (1 <= i <= k)%Z -> (i < MAX_RETRIES cfg)%Z ->
     exists pre e post,
       snd (add_one cfg py_repr wq it)
       = (pre ++ AddItem data reference
              :: LogRetry reference i (MAX_RETRIES cfg)
                   (RETRY_BASE_DELAY cfg * inject_Z (2 ^ (i - 1)))%Q e
              :: Sleep (RETRY_BASE_DELAY cfg * inject_Z (2 ^ (i - 1)))%Q
              :: AddItem data reference :: post)%list
       /\ attempt_count pre = Z.to_nat (i - 1))
  /\ (attempt_count (snd (add_one cfg py_repr wq it)) <= Z.to_nat (MAX_RETRIES cfg))%nat
  /\ ((1 <= MAX_RETRIES cfg <= k)%Z ->
      exists pre e,
        wq data reference (MAX_RETRIES cfg) = Some e
        /\ add_one cfg py_repr wq it
           = (Some false,
              (pre ++ [AddItem data reference;
                       LogFailed reference (MAX_RETRIES cfg) e;
                       Release])%list)
        /\ attempt_count pre = Z.to_nat (MAX_RETRIES cfg - 1)).
Proof.
  intros reference data Hfail. split; [|split].
  - intros i Hi HiM.
    destruct (loop_sleep_between cfg wq data reference k (Z.to_nat (i - 1)) Hfail 1 i)
      as (pre & e & post & Heq & Hcount); try lia.
    unfold add_one. fold reference data.
    destruct (attempt_loop cfg wq data reference _) as [r t]. simpl in Heq. subst t.
    exists (Acquire :: pre), e, (post ++ [Release])%list. split.
    + simpl. f_equal. rewrite <- app_assoc. reflexivity.
    + unfold attempt_count in *. simpl. exact Hcount.
  - unfold add_one. fold reference data.
    pose proof (attempt_loop_count cfg wq data reference (py_range 1 (MAX_RETRIES cfg + 1))) as H.
    rewrite py_range_length in H.
    destruct (attempt_loop cfg wq data reference _) as [r t]. simpl in *.
    unfold attempt_count in *. simpl. rewrite filter_app, length_app. simpl.
    replace (Z.to_nat (MAX_RETRIES cfg + 1 - 1)) with (Z.to_nat (MAX_RETRIES cfg)) in H by lia.
    lia.
  - intros HM.
    destruct (loop_exhausted cfg wq data reference (Z.to_nat (MAX_RETRIES cfg - 1)) 1)
      as (pre & e & Hlast & Heq & Hcount); try lia.
    { intros i Hi. apply Hfail. lia. }
    unfold add_one. fold reference data. rewrite Heq.
    exists (Acquire :: pre), e. split; [exact Hlast|]. split.
    + simpl. rewrite <- app_assoc. reflexivity.
    + unfold attempt_count in *. simpl. exact Hcount.
Qed.

Lemma add_one_backoff_schedule_witness :
  (exists pre e post,
      snd (add_one example_config example_repr always_failing example_item)
      = (pre ++ AddItem (PyDict [("item", PyDict example_item)])
                  (reference_of example_repr example_item)
             :: LogRetry (reference_of example_repr example_item) 2 3
                  ((1 # 2) * inject_Z (2 ^ (2 - 1)))%Q e
             :: Sleep ((1 # 2) * inject_Z (2 ^ (2 - 1)))%Q
             :: AddItem (PyDict [("item", PyDict example_item)])
                  (reference_of example_repr example_item) :: post)%list
      /\ attempt_count pre = Z.to_nat (2 - 1))
  /\ fst (add_one example_config example_repr always_failing example_item) = Some false.
Proof.
  assert (Hfail : forall i, (1 <= i <= 3)%Z ->
            always_failing (PyDict [("item", PyDict example_item)])
              (reference_of example_repr example_item) i <> None)
    by (intros i _; discriminate).
  pose proof (add_one_backoff_schedule example_config example_repr always_failing
                example_item 3 Hfail) as (Hsleep & _ & Hlast).
  split.
  - apply (Hsleep 2%Z); simpl; lia.
  - destruct Hlast as (pre & e & _ & Heq & _); [simpl; lia|].
    rewrite Heq. reflexivity.
Defined.

(** C8, as the claim states it, fails: an empty batch reports no summary. *)
Lemma concurrent_add_empty_reports_nothing :
  exists d,
    concurrent_add example_config example_repr always_failing [] = Returns d
    /\ ~ reports_summary d 0 0 0.
Proof.
  eexists. split; [reflexivity|].
  unfold reports_summary. simpl. intros [H|[]]. discriminate.
Qed.

(** C8, amended. With a permit pool that can be created (a size that is not
    negative), dispatching an empty batch logs "No new items to add." and
    returns [None] at once: no task is started, so nothing is submitted and no
    permit is acquired, and no summary is reported. *)
Theorem concurrent_add_empty (cfg : config) (py_repr : pyobj -> string) (wq : workqueue) :
  (0 <= MAX_CONCURRENCY cfg)%Z ->
  concurrent_add cfg py_repr wq []
  = Returns {| before_tasks := [LogNoItems]; tasks := []; after_tasks := [] |}.
Proof.
  intros H. unfold concurrent_add.
  replace (MAX_CONCURRENCY cfg <? 0)%Z with false by lia. reflexivity.
Qed.

Lemma concurrent_add_empty_witness :
  (0 <= MAX_CONCURRENCY example_config)%Z
  /\ concurrent_add example_config example_repr always_failing []
     = Returns {| before_tasks := [LogNoItems]; tasks := []; after_tasks := [] |}.
Proof.
  split; [simpl; lia|].
  apply concurrent_add_empty. simpl. lia.
Defined.

(** ** [get_taxononmy]: pagination and errors *)

Lemma append_nonempty (a b : string) : b <> "" -> a ++ b <> "".
Proof. destruct a; simpl; [auto|discriminate]. Qed.

Lemma cursor_truthy (base_url case_type href : string) :
  truthy (Some (base_url ++ taxonomy_endpoint case_type ++ href)) = true.
Proof.
  simpl. apply negb_true_iff, String.eqb_neq, append_nonempty.
  unfold taxonomy_endpoint. simpl. discriminate.
Qed.

Lemma fetch_pages_done (replies : list http_reply) (base_url endpoint : string)
    (all_rows : list (list (string * string))) :
  fetch_pages replies base_url endpoint None all_rows = ret all_rows.
Proof. now destruct replies. Qed.

Lemma fetch_pages_step (p : page) (later : list http_reply) (base_url endpoint : string)
    (next_url : option string) (all_rows : list (list (string * string))) :
  truthy next_url = true ->
  fetch_pages (JsonPage p :: later) base_url endpoint next_url all_rows
  = after_events (fetch_events (py_str next_url))
      (fetch_pages later base_url endpoint
         (match NextHref p with
          | Some href => Some (base_url ++ endpoint ++ href)
          | None => None
          end)
         (all_rows ++ rows_of (Row p))%list).
Proof.
  intros H. cbn [fetch_pages]. rewrite H.
  unfold fetch_data, bind, emit, ret, after_events, fetch_events, rows_of.
  destruct (Row p); rewrite ?app_nil_r;
    destruct (fetch_pages later _ _ _ _) as [[t r]|]; reflexivity.
Qed.

Lemma fetch_pages_all (pages : list (option (list (list (string * string))) * string))
    (last : option (list (list (string * string)))) (rest : list http_reply)
    (base_url case_type : string) :
  forall url all_rows,
    truthy (Some url) = true ->
    fetch_pages (map page_with_next pages ++ last_page last :: rest)%list base_url
      (taxonomy_endpoint case_type) (Some url) all_rows
    = Some (flat_map fetch_events
              (url :: map (fun pg => base_url ++ taxonomy_endpoint case_type ++ snd pg) pages),
            Returns (all_rows ++ List.concat (map (fun pg => rows_of (fst pg)) pages)
                     ++ rows_of last)%list).
Proof.
  induction pages as [|pg pages IH]; intros url all_rows Hurl.
  - cbn [map app]. unfold last_page. rewrite fetch_pages_step by exact Hurl.
    cbn [NextHref Row]. rewrite fetch_pages_done.
    cbn [List.concat map flat_map app after_events ret py_str].
    now rewrite !app_nil_r.
  - cbn [map app]. unfold page_with_next at 1. rewrite fetch_pages_step by exact Hurl.
    cbn [NextHref Row]. rewrite IH by apply cursor_truthy.
    cbn [after_events py_str flat_map map List.concat].
    now rewrite <- !app_assoc.
Qed.

(** C3. Against any succession of pages that each carry ["NextHref"],
    followed by a page that does not (whatever the server would answer after
    it, and whatever the number of rows of each page, none included),
    [get_taxononmy] posts exactly once to each cursor, in order -- the first
    URL, then the URL built from each ["NextHref"] -- and stops after the
    page without ["NextHref"]; the rows it then inserts are those of all the
    pages, concatenated in page order. *)
Theorem get_taxononmy_pagination
    (pages : list (option (list (list (string * string))) * string))
    (last : option (list (list (string * string)))) (rest : list http_reply)
    (db : database) (credentials : list (string * option string))
    (case_type : string) (view_id : option string) (base_url : string)
    (username password conn : option string) :
  dict_get "go_api_username" credentials = Some username ->
  dict_get "go_api_password" credentials = Some password ->
  dict_get "sql_conn_string" credentials = Some conn ->
  let first_url :=
    base_url ++ taxonomy_endpoint case_type
    ++ "?Paged=TRUE&p_ID=0&PageFirstRow=31&View=" ++ py_str view_id in
  let cursors :=
    first_url :: map (fun pg => base_url ++ taxonomy_endpoint case_type ++ snd pg) pages in
  let all_rows :=
    (List.concat (map (fun pg => rows_of (fst pg)) pages) ++ rows_of last)%list in
  get_taxononmy (map page_with_next pages ++ last_page last :: rest)%list db credentials
    case_type view_id base_url
  = Some ((flat_map fetch_events cursors
           ++ insert_into_database db conn "rpa.GO_TaxonomyList_Insert" all_rows case_type
           ++ [Print "All rows have been inserted into the database."])%list,
          Returns tt).
Proof.
  intros Hu Hp Hc first_url cursors all_rows. subst first_url cursors all_rows.
  unfold get_taxononmy, subscript.
  rewrite Hu, Hp, Hc.
  cbn [bind ret app].
  rewrite fetch_pages_all.
  - cbn [bind try_except ret emit app]. reflexivity.
  - simpl. apply negb_true_iff, String.eqb_neq, append_nonempty.
    unfold taxonomy_endpoint. simpl. discriminate.
Qed.

Lemma get_taxononmy_pagination_witness :
  get_taxononmy
    (map page_with_next example_pages
     ++ last_page (Some [[("ID", "5"); ("Title", "Klub")]]) :: [NotOk "not requested"])%list
    rejecting_database example_credentials "emnesager" (Some "view") "https://go"
  = Some ((flat_map fetch_events
             (("https://go" ++ taxonomy_endpoint "emnesager"
               ++ "?Paged=TRUE&p_ID=0&PageFirstRow=31&View=view")%string
              :: map (fun pg => ("https://go" ++ taxonomy_endpoint "emnesager" ++ snd pg)%string)
                   example_pages)
           ++ insert_into_database rejecting_database (Some "Server=db")
                "rpa.GO_TaxonomyList_Insert"
                [[("ID", "1"); ("Title", "Skole")]; [("ID", "2"); ("Title", "Dagtilbud")];
                 [("ID", "5"); ("Title", "Klub")]]
                "emnesager"
           ++ [Print "All rows have been inserted into the database."])%list,
          Returns tt).
Proof.
  exact (get_taxononmy_pagination example_pages (Some [[("ID", "5"); ("Title", "Klub")]])
           [NotOk "not requested"] rejecting_database example_credentials "emnesager"
           (Some "view") "https://go" (Some "svc") (Some "secret") (Some "Server=db")
           eq_refl eq_refl eq_refl).
Defined.

(** ** Computations *)

Lemma bind_returns_inv {A B : Type} (m : run A) (k : A -> run B)
    (t : list io_event) (b : B) :
  bind m k = Some (t, Returns b) ->
  exists t1 a t2,
    m = Some (t1, Returns a) /\ k a = Some (t2, Returns b) /\ t = (t1 ++ t2)%list.
Proof.
  unfold bind. destruct m as [[t1 [a|e]]|]; try discriminate.
  destruct (k a) as [[t2 r]|] eqn:Hk; try discriminate.
  intros [= <- ->]. now exists t1, a, t2.
Qed.

Lemma bind_returns {A B : Type} (m : run A) (k : A -> run B)
    (t1 t2 : list io_event) (a : A) (r : result B) :
  m = Some (t1, Returns a) -> k a = Some (t2, r) ->
  bind m k = Some ((t1 ++ t2)%list, r).
Proof. intros -> Hk. unfold bind. now rewrite Hk. Qed.

(** ** [_get_child_terms] against the specification of the tree fetch *)

Section TermTree.
Variables (api_client : term_service) (headers : list (string * string))
          (term_set_uuid base_url case_type : string).

Let fetch (fuel : nat) (parent_uuid : option string) : run (option term_dict) :=
  _get_child_terms fuel api_client headers parent_uuid term_set_uuid base_url case_type.

Let resolved := Resolved api_client headers term_set_uuid base_url case_type.
Let siblings := Siblings api_client headers term_set_uuid base_url case_type.

Lemma has_children_declares (r : term_record) :
  natural_count r -> has_children r = declares_children r.
Proof.
  unfold natural_count, has_children, declares_children.
  destruct (Cc r) as [n|]; [|reflexivity].
  intros H. specialize (H n eq_refl).
  destruct (Z.eqb_spec n 0); destruct (Z.ltb_spec 0 n); simpl; auto; lia.
Qed.

(** A successful fetch returns the root dict. *)
Lemma fetch_root_shape (fuel : nat) (parent : option string)
    (t : list io_event) (root : term_dict) :
  fetch fuel parent = Some (t, Returns (Some root)) ->
  exists children, root = TermDict [("Id", parent)] (Some children).
Proof.
  unfold fetch. destruct fuel as [|fuel]; [discriminate|].
  cbn [_get_child_terms]. intros H.
  apply bind_returns_inv in H as (t1 & reply & t2 & _ & H & _).
  destruct reply as [[[content|]|]|]; try discriminate.
  apply bind_returns_inv in H as (t3 & children & t4 & _ & H & _).
  injection H as _ <-. now exists children.
Qed.

(** The loop, given that the recursive calls that return agree with the
    specification. *)
Lemma each_node_sound (recurse : option string -> run (option term_dict))
    (parent : option string) :
  (forall id t tree, recurse id = Some (t, Returns (Some tree)) -> resolved id tree t) ->
  forall content acc t children,
    Forall natural_count content ->
    each_node recurse parent content acc = Some (t, Returns children) ->
    exists new, children = (acc ++ new)%list /\ siblings parent content new t.
Proof.
  intros Hrec. induction content as [|r later IH]; intros acc t children Hnat H.
  - injection H as <- <-. exists []. rewrite app_nil_r. split; [reflexivity|constructor].
  - inversion Hnat as [|? ? Hr Hlater]; subst.
    cbn [each_node] in H.
    fold (carries_name_and_id r) in H.
    destruct (carries_name_and_id r) eqn:Hc.
    + apply bind_returns_inv in H as (t1 & child & t2 & Hchild & H & ->).
      apply IH in H as (new & -> & Hs); [|exact Hlater].
      exists (child :: new). rewrite <- app_assoc. split; [reflexivity|].
      destruct (has_children r) eqn:Hh; rewrite (has_children_declares r Hr) in Hh.
      * apply bind_returns_inv in Hchild as (t3 & sub & t4 & Hsub & Hchild & ->).
        apply bind_returns_inv in Hchild as (t5 & cs & t6 & Hcs & Hchild & ->).
        injection Hchild as <- <-.
        destruct sub as [[a [cs'|]]|]; try discriminate.
        injection Hcs as <- <-.
        rewrite !app_nil_r.
        eapply Siblings_subtree; eauto. apply Hrec. exact Hsub.
      * injection Hchild as <- <-. now apply Siblings_leaf.
    + apply IH in H as (new & -> & Hs); [|exact Hlater].
      exists new. split; [reflexivity|]. now apply Siblings_skip.
Qed.

Hypothesis counts : counts_are_natural api_client.

Lemma fetch_sound (fuel : nat) :
  forall parent t tree,
    fetch fuel parent = Some (t, Returns (Some tree)) -> resolved parent tree t.
Proof.
  unfold fetch. induction fuel as [|fuel IH]; intros parent t tree H; [discriminate|].
  cbn [_get_child_terms] in H.
  apply bind_returns_inv in H as (t1 & reply & t2 & Hpost & H & ->).
  unfold post_data in Hpost.
  apply bind_returns_inv in Hpost as (t0 & [] & t0' & Hemit & Hpost & ->).
  injection Hemit as <-.
  destruct (api_client _ headers _) as [e|jd] eqn:Hapi.
  - destruct e; try discriminate.
    apply bind_returns_inv in Hpost as (? & [] & ? & _ & Hpost & ->).
    injection Hpost as <- <-. discriminate.
  - injection Hpost as <- <-.
    destruct jd as [[content|]|]; try discriminate.
    apply bind_returns_inv in H as (t3 & children & t4 & Heach & H & ->).
    injection H as <- <-.
    eapply each_node_sound in Heach as (new & -> & Hs).
    + rewrite !app_nil_r. simpl. now apply Resolved_node with (content := content).
    + exact IH.
    + apply Forall_forall. intros r Hr n Hn. eapply counts; eauto.
Qed.
End TermTree.

Section TermTreeComplete.
Variables (api_client : term_service) (headers : list (string * string))
          (term_set_uuid base_url case_type : string).
Hypothesis counts : counts_are_natural api_client.

Let recurse (fuel : nat) : option string -> run (option term_dict) :=
  fun node_id =>
    _get_child_terms fuel api_client headers node_id term_set_uuid base_url case_type.

Lemma each_node_skip (fuel : nat) (parent : option string) (r : term_record)
    (later : list term_record) (acc : list term_dict) :
  carries_name_and_id r = false ->
  each_node (recurse fuel) parent (r :: later) acc
  = each_node (recurse fuel) parent later acc.
Proof. intros H. cbn [each_node]. fold (carries_name_and_id r). now rewrite H. Qed.

Lemma each_node_leaf (fuel : nat) (parent : option string) (r : term_record)
    (later : list term_record) (acc : list term_dict) :
  carries_name_and_id r = true -> has_children r = false ->
  each_node (recurse fuel) parent (r :: later) acc
  = each_node (recurse fuel) parent later
      (acc ++ [TermDict [("Name", Nm r); ("Id", Id r); ("ParentId", parent)] None])%list.
Proof.
  intros H1 H2. cbn [each_node]. fold (carries_name_and_id r). rewrite H1, H2.
  unfold bind, ret. now destruct (each_node _ _ _ _) as [[? ?]|].
Qed.

Lemma each_node_subtree (fuel : nat) (parent : option string) (r : term_record)
    (later : list term_record) (acc : list term_dict)
    (sub_t : list io_event) (a : list (string * option string)) (cs : list term_dict) :
  carries_name_and_id r = true -> has_children r = true ->
  recurse fuel (Id r) = Some (sub_t, Returns (Some (TermDict a (Some cs)))) ->
  each_node (recurse fuel) parent (r :: later) acc
  = after_events sub_t
      (each_node (recurse fuel) parent later
         (acc ++ [TermDict [("Name", Nm r); ("Id", Id r); ("ParentId", parent)]
                    (Some cs)])%list).
Proof.
  intros H1 H2 H3. cbn [each_node]. fold (carries_name_and_id r). rewrite H1, H2, H3.
  cbn [bind ret subscript_children app after_events].
  rewrite !app_nil_r.
  now destruct (each_node _ _ _ _) as [[? ?]|].
Qed.

Lemma fetch_complete (parent : option string) (tree : term_dict) (t : list io_event) :
  Resolved api_client headers term_set_uuid base_url case_type parent tree t ->
  exists fuel0, forall fuel, (fuel0 <= fuel)%nat ->
    recurse fuel parent = Some (t, Returns (Some tree)).
Proof.
  intros H.
  induction H using Resolved_mut with
    (P0 := fun parent content children t =>
       Forall natural_count content ->
       exists fuel0, forall fuel, (fuel0 <= fuel)%nat -> forall acc,
         each_node (recurse fuel) parent content acc
         = Some (t, Returns (acc ++ children)%list)).
  - destruct IHResolved as [fuel0 Hfuel].
    { apply Forall_forall. intros r Hr n Hn. eapply counts; eauto. }
    exists (S fuel0). intros [|fuel] Hle; [lia|].
    unfold recurse. cbn [_get_child_terms].
    unfold post_data. rewrite H. cbn [emit bind ret app].
    fold (recurse fuel). rewrite (Hfuel fuel) by lia.
    cbn [bind ret app]. now rewrite app_nil_r.
  - intros _. exists 0%nat. intros fuel _ acc. simpl. now rewrite app_nil_r.
  - intros Hnat. inversion Hnat as [|? ? Hr Hlater]; subst.
    destruct (IHResolved Hlater) as [fuel0 Hfuel].
    exists fuel0. intros fuel Hle acc.
    rewrite each_node_skip by assumption. now apply Hfuel.
  - intros Hnat. inversion Hnat as [|? ? Hr Hlater]; subst.
    destruct (IHResolved Hlater) as [fuel0 Hfuel].
    exists fuel0. intros fuel Hle acc.
    rewrite each_node_leaf; [|assumption|now rewrite has_children_declares].
    rewrite Hfuel by assumption. now rewrite <- app_assoc.
  - intros Hnat. inversion Hnat as [|? ? Hr Hlater]; subst.
    destruct IHResolved as [fuel1 Hsub].
    destruct (IHResolved0 Hlater) as [fuel2 Hfuel].
    exists (Nat.max fuel1 fuel2). intros fuel Hle acc.
    rewrite (each_node_subtree fuel parent r later acc sub_t sub_attrs sub_children);
      [|assumption|now rewrite has_children_declares|apply Hsub; lia].
    rewrite Hfuel by lia. cbn [after_events]. now rewrite <- app_assoc.
Qed.
End TermTreeComplete.

Lemma example_service_counts : counts_are_natural example_service.
Proof.
  intros url headers body content r n H Hin Hn.
  unfold example_service in H.
  destruct body as [| | | | |kvs]; try discriminate.
  destruct (dict_get "guid" kvs) as [[| | |g| |]|]; try discriminate.
  destruct (g =? "root").
  - injection H as <-.
    destruct Hin as [<-|[<-|[<-|[]]]]; simpl in Hn; injection Hn as <-; lia.
  - destruct (g =? "a"); [|discriminate].
    injection H as <-.
    destruct Hin as [<-|[]]; simpl in Hn; discriminate.
Qed.

(** C5. The service declaring no negative child count: a run of
    [_get_child_terms] that returns a tree is exactly a resolution of that
    tree as the specification describes it -- one node [{Name, Id, ParentId}]
    for each record that carries both a name and an id and none for the
    others, in the order of the reply, and the subtree of a record that
    declares children fetched in full before the next record is handled --
    and every such resolution is returned by the function, with the same
    requests in the same order, as soon as it is given enough fuel. *)
Theorem get_child_terms_builds_tree (api_client : term_service)
    (headers : list (string * string)) (term_set_uuid base_url case_type : string) :
  counts_are_natural api_client ->
  forall (parent : option string) (tree : term_dict) (t : list io_event),
    ((exists fuel,
         _get_child_terms fuel api_client headers parent term_set_uuid base_url case_type
         = Some (t, Returns (Some tree))) ->
     Resolved api_client headers term_set_uuid base_url case_type parent tree t)
    /\ (Resolved api_client headers term_set_uuid base_url case_type parent tree t ->
        exists fuel0, forall fuel, (fuel0 <= fuel)%nat ->
          _get_child_terms fuel api_client headers parent term_set_uuid base_url case_type
          = Some (t, Returns (Some tree))).
Proof.
  intros counts parent tree t. split.
  - intros [fuel H]. eapply fetch_sound; eauto.
  - intros H. now apply fetch_complete.
Qed.

Lemma get_child_terms_builds_tree_witness :
  exists tree t,
    _get_child_terms 2 example_service [] (Some "root") "ts" "https://go" "emnesager"
    = Some (t, Returns (Some tree))
    /\ Resolved example_service [] "ts" "https://go" "emnesager" (Some "root") tree t.
Proof.
  eexists. eexists. split; [reflexivity|].
  apply (get_child_terms_builds_tree example_service [] "ts" "https://go" "emnesager"
           example_service_counts).
  exists 2%nat. reflexivity.
Defined.

(** ** [_insert_term_data_to_sql]: one call per node, parents first *)

Section TermDictInduction.
Variable P : term_dict -> Prop.
Hypothesis HNode : forall attrs children,
    match children with
    | Some cs => Forall P cs
    | None => True
    end -> P (TermDict attrs children).

Fixpoint term_dict_nested_ind (d : term_dict) : P d :=
  match d with
  | TermDict attrs children =>
      HNode attrs children
        (match children
               return match children with Some cs => Forall P cs | None => True end with
         | Some cs =>
             (fix go (cs : list term_dict) : Forall P cs :=
                match cs with
                | [] => Forall_nil _
                | c :: later => Forall_cons c (term_dict_nested_ind c) (go later)
                end) cs
         | None => I
         end)
  end.
End TermDictInduction.

Lemma insert_term_dict_preorder (db : database) (sql_conn_string : option string)
    (term_set_uuid sql_stored_procedure : string) (d : term_dict) :
  forallb dict_bool (preorder d) = true ->
  insert_term_dict db d sql_conn_string term_set_uuid sql_stored_procedure
  = map (upsert_of sql_conn_string term_set_uuid sql_stored_procedure) (preorder d).
Proof.
  induction d as [attrs children IH] using term_dict_nested_ind.
  cbn [preorder forallb]. intros H. apply andb_true_iff in H as [Hd Hcs].
  cbn [insert_term_dict]. rewrite Hd. cbn [map]. f_equal.
  destruct children as [cs|]; [|reflexivity].
  clear Hd.
  induction IH as [|c later Hc _ IHlater]; [reflexivity|].
  rewrite forallb_app in Hcs. apply andb_true_iff in Hcs as [Hc1 Hc2].
  rewrite map_app, <- (IHlater Hc2), <- (Hc Hc1). reflexivity.
Qed.

(** C10. Whenever [_get_child_terms] returns a tree, [_insert_term_data_to_sql]
    first makes a call for the root record itself, whose parameters [name]
    and [parent_uuid] are the string ["None"], the root record having neither
    a ["Name"] nor a ["ParentId"] key; more generally the call made for any
    dict sends the string ["None"] for each of the keys ["Name"], ["Id"] and
    ["ParentId"] that the dict lacks. *)
Theorem insert_term_data_root_and_missing_fields (fuel : nat) (api_client : term_service)
    (headers : list (string * string)) (start_term_id : option string)
    (term_set_uuid base_url case_type : string) (t : list io_event) (root : term_dict)
    (db : database) (sql_conn_string : option string) (sql_stored_procedure : string) :
  _get_child_terms fuel api_client headers start_term_id term_set_uuid base_url case_type
  = Some (t, Returns (Some root)) ->
  (dict_get "Name" (attrs_of root) = None /\ dict_get "ParentId" (attrs_of root) = None)
  /\ (exists rest,
         _insert_term_data_to_sql db (Some root) sql_conn_string term_set_uuid
           sql_stored_procedure
         = Execute sql_conn_string ("rpa." ++ sql_stored_procedure)
             [("name", ("str", "None"));
              ("uuid", ("str", py_str start_term_id));
              ("parent_uuid", ("str", "None"));
              ("term_set_uuid", ("str", term_set_uuid))] :: rest)
  /\ (forall d : term_dict, dict_bool d = true ->
        (exists rest,
            _insert_term_data_to_sql db (Some d) sql_conn_string term_set_uuid
              sql_stored_procedure
            = Execute sql_conn_string ("rpa." ++ sql_stored_procedure)
                [("name", ("str", py_str (attr d "Name")));
                 ("uuid", ("str", py_str (attr d "Id")));
                 ("parent_uuid", ("str", py_str (attr d "ParentId")));
                 ("term_set_uuid", ("str", term_set_uuid))] :: rest)
        /\ (forall k, dict_get k (attrs_of d) = None -> py_str (attr d k) = "None")).
Proof.
  intros H. apply fetch_root_shape in H as [children ->].
  split; [split; reflexivity|]. split.
  - eexists. cbn [_insert_term_data_to_sql insert_term_dict dict_bool]. reflexivity.
  - intros d Hd. split.
    + destruct d as [attrs cs]. eexists. cbn [_insert_term_data_to_sql insert_term_dict].
      rewrite Hd. reflexivity.
    + intros k Hk. unfold attr. now rewrite Hk.
Qed.

Lemma insert_term_data_root_and_missing_fields_witness :
  exists rest,
    _insert_term_data_to_sql rejecting_database (Some example_tree) (Some "Server=db") "ts"
      "GO_Departments_Insert"
    = Execute (Some "Server=db") "rpa.GO_Departments_Insert"
        [("name", ("str", "None")); ("uuid", ("str", "root"));
         ("parent_uuid", ("str", "None")); ("term_set_uuid", ("str", "ts"))] :: rest.
Proof.
  exact (proj1 (proj2
    (insert_term_data_root_and_missing_fields 2 example_service [] (Some "root") "ts"
       "https://go" "emnesager" _ example_tree rejecting_database (Some "Server=db")
       "GO_Departments_Insert" eq_refl))).
Defined.

(** C6: the code at a tree of three nodes whose middle node is rejected by
    the database.  All three nodes are visited, parents first, one call each;
    the failure that the database reports for the middle node is not logged
    (nothing is printed at all). *)
Theorem insert_term_data_failure_not_logged :
  let trace :=
    _insert_term_data_to_sql rejecting_database (Some three_nodes) (Some "Server=db")
      "ts" "GO_Departments_Insert" in
  trace = map (upsert_of (Some "Server=db") "ts" "GO_Departments_Insert") (preorder three_nodes)
  /\ List.length trace = 3%nat
  /\ success (rejecting_database (Some "Server=db") "rpa.GO_Departments_Insert"
                [("name", ("str", "Skole")); ("uuid", ("str", "a"));
                 ("parent_uuid", ("str", "root")); ("term_set_uuid", ("str", "ts"))])
     = false
  /\ filter is_print trace = [].
Proof. repeat split. Qed.

(** The flat pull does print such a failure. *)
Lemma insert_into_database_logs_failure :
  insert_into_database rejecting_database (Some "Server=db") "rpa.GO_TaxonomyList_Insert"
    [[("ID", "a"); ("Title", "Skole")]] "emnesager"
  = [PrintParams [("ID", ("str", "a")); ("Title", ("str", "Skole"));
                  ("IdForTermStore", ("str", "")); ("IdForTerm", ("str", ""));
                  ("IdForTermSet", ("str", "")); ("Path", ("str", ""));
                  ("CaseType", ("str", "emnesager"))];
     Execute (Some "Server=db") "rpa.GO_TaxonomyList_Insert"
       [("ID", ("str", "a")); ("Title", ("str", "Skole"));
        ("IdForTermStore", ("str", "")); ("IdForTerm", ("str", ""));
        ("IdForTermSet", ("str", "")); ("Path", ("str", ""));
        ("CaseType", ("str", "emnesager"))];
     Print "Failed to insert record: constraint violated"].
Proof. reflexivity. Qed.

(** ** [get_taxononmy]: what an error does *)




(** C7: the code when one of the two API credentials is missing.  The
    credentials are read before the [try] statement: the [KeyError] leaves
    [get_taxononmy], and nothing is printed. *)
Theorem get_taxononmy_missing_api_credential_escapes (replies : list http_reply)
    (db : database) (username password conn : option string) (case_type : string)
    (view_id : option string) (base_url : string) :
  get_taxononmy replies db [("go_api_password", password); ("sql_conn_string", conn)]
    case_type view_id base_url
  = Some ([], Raises (KeyError "go_api_username"))
  /\ get_taxononmy replies db [("go_api_username", username); ("sql_conn_string", conn)]
       case_type view_id base_url
     = Some ([], Raises (KeyError "go_api_password")).
Proof. split; reflexivity. Qed.

(** ** [_get_child_terms]: a fetch that fails *)

(** At the top of the recursion a failed fetch gives [None], and
    [pull_term_data_from_go_to_sql] then sends nothing to the database. *)
Lemma pull_term_data_root_failure (fuel : nat) (api_client : term_service)
    (db : database) (digest : string) (base_url case_type : string)
    (start_term_id : option string) (sql_stored_procedure term_set_uuid msg : string) :
  digest <> "" ->
  (forall url headers body, api_client url headers body = inl (RequestException msg)) ->
  exists t,
    pull_term_data_from_go_to_sql (S fuel) api_client (Some digest) db example_credentials
      base_url case_type start_term_id sql_stored_procedure term_set_uuid
    = Some (t, Returns tt)
    /\ filter is_execute t = [].
Proof.
  intros Hd Hapi. unfold pull_term_data_from_go_to_sql.
  cbn [subscript example_credentials dict_get String.eqb Ascii.eqb Bool.eqb bind ret app truthy].
  apply String.eqb_neq in Hd. rewrite Hd. cbn [negb _get_child_terms].
  unfold post_data. rewrite Hapi.
  cbn [bind emit ret app _insert_term_data_to_sql]. eexists. split; reflexivity.
Qed.

(** Below the top it does not: when the first record of a reply carries a
    name and an id and declares children, and the fetch for it fails, the
    [None] that comes back is subscripted. *)
Lemma get_child_terms_failed_child_raises_in_general (fuel : nat)
    (api_client : term_service) (headers : list (string * string))
    (parent : option string) (term_set_uuid base_url case_type msg : string)
    (r : term_record) (later : list term_record) :
  api_client (child_terms_url (negb (truthy parent)) base_url case_type) headers
    (child_terms_body (negb (truthy parent)) parent term_set_uuid)
  = inr (Some (Some (r :: later))) ->
  carries_name_and_id r = true -> has_children r = true ->
  api_client (child_terms_url (negb (truthy (Id r))) base_url case_type) headers
    (child_terms_body (negb (truthy (Id r))) (Id r) term_set_uuid)
  = inl (RequestException msg) ->
  exists t,
    _get_child_terms (S (S fuel)) api_client headers parent term_set_uuid base_url case_type
    = Some (t, Raises (TypeError "'NoneType' object is not subscriptable")).
Proof.
  intros Hroot Hc Hh Hchild.
  cbn [_get_child_terms]. unfold post_data. rewrite Hroot.
  cbn [emit bind ret app each_node]. fold (carries_name_and_id r).
  rewrite Hc, Hh, Hchild.
  cbn [emit bind ret raise app subscript_children]. eexists. reflexivity.
Qed.

(** C2: the code when the fetch for a child with a declared child count
    fails.  [_get_child_terms] returns [None] for that child, and the caller
    subscripts it: a [TypeError] leaves the function, whatever the depth
    allowed. *)
Theorem get_child_terms_failed_child_raises (fuel : nat) :
  _get_child_terms (S (S fuel)) outage_service [] (Some "root") "ts" "https://go" "emnesager"
  = Some ([Post (child_terms_url false "https://go" "emnesager") []
             (Some (child_terms_body false (Some "root") "ts"));
           Post (child_terms_url false "https://go" "emnesager") []
             (Some (child_terms_body false (Some "a") "ts"));
           Print "Request failed. Error message: 503 Server Error"],
          Raises (TypeError "'NoneType' object is not subscriptable")).
Proof. reflexivity. Qed.

(** * Further properties of the code *)

(** ** [retrieve_items_for_queue] *)

Lemma append_cancel_l (a b c : string) : a ++ b = a ++ c -> b = c.
Proof. induction a as [|x a IH]; simpl; [auto|]. intros [= H]. auto. Qed.

Lemma combine_map_map {X Y Z : Type} (f : X -> Y) (g : X -> Z) (l : list X) :
  combine (map f l) (map g l) = map (fun x => (f x, g x)) l.
Proof. induction l as [|x l IH]; simpl; [reflexivity|now rewrite IH]. Qed.

Lemma retrieve_items_for_queue_map (todays_date : string)
    (catalog : list (string * list (string * pyobj))) :
  retrieve_items_for_queue todays_date catalog
  = map (fun entry => [("reference", PyStr (todays_date ++ "_" ++ fst entry));
                       ("data", PyDict (snd entry))]) catalog.
Proof.
  unfold retrieve_items_for_queue. rewrite combine_map_map, map_map. reflexivity.
Qed.

Lemma reference_of_retrieved (py_repr : pyobj -> string) (todays_date name : string)
    (args : list (string * pyobj)) :
  reference_of py_repr [("reference", PyStr (todays_date ++ "_" ++ name)); ("data", PyDict args)]
  = todays_date ++ "_" ++ name.
Proof.
  unfold reference_of. cbn [dict_get String.eqb Ascii.eqb Bool.eqb py_bool str_of].
  assert (H : todays_date ++ "_" ++ name <> "") by (apply append_nonempty; discriminate).
  apply String.eqb_neq in H. now rewrite H.
Qed.

(** X1. The items built from the catalog are submitted under the references
    ["<date>_<job name>"], one per catalog entry and in catalog order (the
    fallback to the empty reference in [add_one] is never taken for them),
    each carries the arguments of its entry under ["data"], and the
    references of a run are pairwise distinct since the job names are. *)
Theorem retrieve_items_for_queue_references (py_repr : pyobj -> string)
    (todays_date : string) (catalog : list (string * list (string * pyobj))) :
  NoDup (map fst catalog) ->
  map (reference_of py_repr) (retrieve_items_for_queue todays_date catalog)
  = map (fun entry => todays_date ++ "_" ++ fst entry) catalog
  /\ map (dict_get "data") (retrieve_items_for_queue todays_date catalog)
     = map (fun entry => Some (PyDict (snd entry))) catalog
  /\ NoDup (map (reference_of py_repr) (retrieve_items_for_queue todays_date catalog)).
Proof.
  intros Hnd.
  assert (Hrefs : map (reference_of py_repr) (retrieve_items_for_queue todays_date catalog)
                  = map (fun entry => todays_date ++ "_" ++ fst entry) catalog).
  { rewrite retrieve_items_for_queue_map, map_map.
    apply map_ext. intros [name args]. apply reference_of_retrieved. }
  split; [exact Hrefs|]. split.
  - rewrite retrieve_items_for_queue_map, map_map. reflexivity.
  - rewrite Hrefs. clear Hrefs.
    induction catalog as [|[name args] catalog IH]; simpl; [constructor|].
    inversion Hnd as [|? ? Hnotin Hnd']; subst.
    constructor; [|now apply IH].
    intros Hin. apply in_map_iff in Hin as ([name' args'] & Heq & Hin).
    apply append_cancel_l in Heq. simpl in Heq. injection Heq as Heq. subst name'.
    apply Hnotin. apply in_map_iff. now exists (name, args').
Qed.

Lemma retrieve_items_for_queue_references_witness :
  NoDup (map (reference_of example_repr) (retrieve_items_for_queue "2026-01-01" proces_arguments)).
Proof.
  apply (retrieve_items_for_queue_references example_repr "2026-01-01" proces_arguments).
  apply unique_keys_NoDup. reflexivity.
Defined.

(** ** [add_one]: success, and the time spent *)

Lemma sleeps_of_app (t1 t2 : list queue_event) :
  sleeps_of (t1 ++ t2)%list = (sleeps_of t1 ++ sleeps_of t2)%list.
Proof. unfold sleeps_of. now rewrite flat_map_app. Qed.

Lemma attempt_count_app (t1 t2 : list queue_event) :
  attempt_count (t1 ++ t2)%list = (attempt_count t1 + attempt_count t2)%nat.
Proof. unfold attempt_count. now rewrite filter_app, length_app. Qed.

Lemma loop_succeeds_after (cfg : config) (wq : workqueue) (data : pyobj)
    (reference : string) (k : Z) (n : nat) :
  (k < MAX_RETRIES cfg)%Z ->
  (forall i, 1 <= i <= k -> wq data reference i <> None)%Z ->
  wq data reference (k + 1)%Z = None ->
  forall a, (1 <= a <= k + 1)%Z -> Z.to_nat (k + 1 - a) = n ->
    exists pre,
      attempt_loop cfg wq data reference (py_range a (MAX_RETRIES cfg + 1))
      = (Some true, (pre ++ [AddItem data reference; LogAdded reference])%list)
      /\ sleeps_of pre = map (backoff_delay cfg) (py_range a (k + 1))
      /\ attempt_count pre = Z.to_nat (k + 1 - a).
Proof.
  intros HkM Hfail Hok. induction n as [|n IH]; intros a Ha Hn.
  - assert (a = k + 1)%Z by lia. subst a.
    exists []. rewrite (loop_success cfg wq data reference (k + 1)) by (lia || assumption).
    rewrite py_range_nil by lia.
    replace (k + 1 - (k + 1))%Z with 0%Z by lia. auto.
  - destruct (wq data reference a) as [e|] eqn:Hw; [|exfalso; apply (Hfail a); [lia|exact Hw]].
    destruct (IH (a + 1)%Z) as (pre & Heq & Hs & Hc); try lia.
    exists (AddItem data reference
            :: LogRetry reference a (MAX_RETRIES cfg) (backoff_delay cfg a) e
            :: Sleep (backoff_delay cfg a) :: pre).
    rewrite (loop_retry cfg wq data reference a e) by (lia || assumption).
    rewrite Heq. cbn [fst snd]. split; [reflexivity|]. split.
    + rewrite (py_range_cons a) by lia. cbn [map]. unfold sleeps_of in *.
      cbn [flat_map app]. now rewrite Hs.
    + unfold attempt_count in *. cbn [filter is_attempt List.length]. rewrite Hc. lia.
Qed.

(** X2. When the first [k] attempts of an item fail and attempt [k + 1]
    succeeds, with [k] below [MAX_RETRIES], [add_one] returns [True] after
    exactly [k + 1] calls of [workqueue.add_item]; it has slept [k] times, for
    [RETRY_BASE_DELAY * 2 ^ (i - 1)] after attempt [i], and after the
    successful call it only logs the reference and releases the permit. *)
Theorem add_one_succeeds_after_retries (cfg : config) (py_repr : pyobj -> string)
    (wq : workqueue) (it : list (string * pyobj)) (k : Z) :
  let reference := reference_of py_repr it in
  let data := PyDict [("item", PyDict it)] in
  (0 <= k < MAX_RETRIES cfg)%Z ->
  (forall i, 1 <= i <= k -> wq data reference i <> None)%Z ->
  wq data reference (k + 1)%Z = None ->
  exists pre,
    add_one cfg py_repr wq it
    = (Some true,
       (Acquire :: pre ++ [AddItem data reference; LogAdded reference; Release])%list)
    /\ attempt_count (snd (add_one cfg py_repr wq it)) = Z.to_nat (k + 1)
    /\ sleeps_of (snd (add_one cfg py_repr wq it))
       = map (fun i => (RETRY_BASE_DELAY cfg * inject_Z (2 ^ (i - 1)))%Q) (py_range 1 (k + 1)).
Proof.
  intros reference data Hk Hfail Hok.
  destruct (loop_succeeds_after cfg wq data reference k (Z.to_nat k)
              (proj2 Hk) Hfail Hok 1%Z) as (pre & Heq & Hs & Hc); try lia.
  exists pre. unfold add_one. fold reference data. rewrite Heq. cbn [snd].
  split; [now rewrite <- app_assoc|]. split.
  - change (Acquire :: (pre ++ [AddItem data reference; LogAdded reference]) ++ [Release])%list
      with ([Acquire] ++ (pre ++ [AddItem data reference; LogAdded reference]) ++ [Release])%list.
    rewrite !attempt_count_app, Hc. unfold attempt_count. simpl. lia.
  - change (Acquire :: (pre ++ [AddItem data reference; LogAdded reference]) ++ [Release])%list
      with ([Acquire] ++ (pre ++ [AddItem data reference; LogAdded reference]) ++ [Release])%list.
    rewrite !sleeps_of_app, Hs. simpl. now rewrite !app_nil_r.
Qed.

Lemma add_one_succeeds_after_retries_witness :
  fst (add_one example_config example_repr failing_once example_item) = Some true
  /\ sleeps_of (snd (add_one example_config example_repr failing_once example_item))
     = [((1 # 2) * inject_Z (2 ^ (1 - 1)))%Q].
Proof.
  destruct (add_one_succeeds_after_retries example_config example_repr failing_once
              example_item 1) as (pre & Heq & _ & Hs).
  - simpl. lia.
  - intros i Hi. assert (i = 1)%Z by lia. subst i. discriminate.
  - reflexivity.
  - rewrite Heq. split; [reflexivity|]. rewrite Heq in Hs. exact Hs.
Defined.

(** X3. With [MAX_RETRIES] at zero or below (and a permit pool of positive
    size, so that every task gets its permit), [add_one] takes the permit and
    gives it back without calling [workqueue.add_item] or logging anything,
    and returns [None]; [concurrent_add] then submits nothing and counts
    every item of the batch as failed. *)
Theorem add_one_without_retries (cfg : config) (py_repr : pyobj -> string)
    (wq : workqueue) (item : list (string * pyobj))
    (items : list (list (string * pyobj))) :
  (MAX_RETRIES cfg <= 0)%Z -> (0 < MAX_CONCURRENCY cfg)%Z ->
  add_one cfg py_repr wq item = (None, [Acquire; Release])
  /\ concurrent_add cfg py_repr wq (item :: items)
     = Returns {| before_tasks := [LogProcessing (S (List.length items))];
                  tasks := repeat (None, [Acquire; Release]) (S (List.length items));
                  after_tasks := [LogSummary 0 (Z.of_nat (S (List.length items)))
                                    (Z.of_nat (S (List.length items)))] |}.
Proof.
  intros HM HC.
  assert (Hone : forall i, add_one cfg py_repr wq i = (None, [Acquire; Release])).
  { intros i. unfold add_one. rewrite py_range_nil by lia. reflexivity. }
  split; [apply Hone|].
  unfold concurrent_add. replace (MAX_CONCURRENCY cfg <? 0)%Z with false by lia.
  assert (Hlen : List.length (sorted_items (item :: items)) = S (List.length items)).
  { unfold sorted_items. rewrite <- (Permutation_length (sorted_by_perm _ (item :: items))).
    reflexivity. }
  assert (Htasks : map (add_one cfg py_repr wq) (sorted_items (item :: items))
                   = repeat (None, [Acquire; Release]) (S (List.length items))).
  { rewrite <- Hlen. generalize (sorted_items (item :: items)). intros l.
    induction l as [|x l IH]; [reflexivity|]. cbn [map List.length repeat].
    now rewrite Hone, IH. }
  rewrite Htasks, Hlen. f_equal. f_equal.
  assert (Hs : filter is_success (map fst (repeat (@None bool, [Acquire; Release])
                                            (S (List.length items)))) = []).
  { generalize (S (List.length items)). intros n.
    induction n as [|n IH]; [reflexivity|exact IH]. }
  rewrite Hs, repeat_length. cbn [List.length]. f_equal; f_equal; lia.
Qed.

Lemma add_one_without_retries_witness :
  add_one {| MAX_CONCURRENCY := 2; MAX_RETRIES := 0; RETRY_BASE_DELAY := 1 # 2 |}
    example_repr always_failing example_item
  = (None, [Acquire; Release]).
Proof.
  apply (add_one_without_retries
           {| MAX_CONCURRENCY := 2; MAX_RETRIES := 0; RETRY_BASE_DELAY := 1 # 2 |}
           example_repr always_failing example_item []); simpl; lia.
Defined.

Lemma loop_total_delay (cfg : config) (wq : workqueue) (data : pyobj)
    (reference : string) (n : nat) :
  forall a, (1 <= a <= MAX_RETRIES cfg)%Z ->
    (forall i, a <= i <= MAX_RETRIES cfg -> wq data reference i <> None)%Z ->
    Z.to_nat (MAX_RETRIES cfg - a) = n ->
    (total_delay (snd (attempt_loop cfg wq data reference
                         (py_range a (MAX_RETRIES cfg + 1))))
     == RETRY_BASE_DELAY cfg
        * (inject_Z (2 ^ (MAX_RETRIES cfg - 1)) - inject_Z (2 ^ (a - 1))))%Q.
Proof.
  induction n as [|n IH]; intros a Ha Hfail Hn.
  - assert (a = MAX_RETRIES cfg) by lia. subst a.
    destruct (wq data reference (MAX_RETRIES cfg)) as [e|] eqn:Hw;
      [|exfalso; apply (Hfail (MAX_RETRIES cfg)); [lia|exact Hw]].
    rewrite (loop_last_failure cfg wq data reference e Hw).
    unfold total_delay. simpl. ring.
  - destruct (wq data reference a) as [e|] eqn:Hw; [|exfalso; apply (Hfail a); [lia|exact Hw]].
    rewrite (loop_retry cfg wq data reference a e) by (lia || assumption).
    cbn [snd]. unfold total_delay in *. cbn [sleeps_of flat_map app fold_right].
    fold (sleeps_of (snd (attempt_loop cfg wq data reference
                            (py_range (a + 1) (MAX_RETRIES cfg + 1))))).
    rewrite (IH (a + 1)%Z) by (try lia; intros i Hi; apply Hfail; lia).
    unfold backoff_delay.
    replace (a + 1 - 1)%Z with (Z.succ (a - 1)) by lia.
    rewrite Z.pow_succ_r by lia. rewrite inject_Z_mult. ring.
Qed.

(** X4. When every attempt of an item fails, with [MAX_RETRIES] at least one,
    the task has slept [RETRY_BASE_DELAY * (2 ^ (MAX_RETRIES - 1) - 1)] in
    all (the sum of its backoff delays) by the time it gives up. *)
Theorem add_one_total_backoff (cfg : config) (py_repr : pyobj -> string)
    (wq : workqueue) (it : list (string * pyobj)) :
  (1 <= MAX_RETRIES cfg)%Z ->
  (forall i, 1 <= i <= MAX_RETRIES cfg ->
     wq (PyDict [("item", PyDict it)]) (reference_of py_repr it) i <> None)%Z ->
  (total_delay (snd (add_one cfg py_repr wq it))
   == RETRY_BASE_DELAY cfg * (inject_Z (2 ^ (MAX_RETRIES cfg - 1)) - 1))%Q.
Proof.
  intros HM Hfail.
  pose proof (loop_total_delay cfg wq (PyDict [("item", PyDict it)]) (reference_of py_repr it)
                (Z.to_nat (MAX_RETRIES cfg - 1)) 1%Z) as H.
  unfold add_one.
  destruct (attempt_loop cfg wq _ _ _) as [r t]. cbn [snd] in *.
  unfold total_delay in *. cbn [sleeps_of flat_map app]. fold (sleeps_of (t ++ [Release])%list).
  rewrite sleeps_of_app. cbn [sleeps_of flat_map app]. rewrite app_nil_r.
  rewrite H by (lia || assumption). simpl. ring.
Qed.

Lemma add_one_total_backoff_witness :
  (total_delay (snd (add_one example_config example_repr always_failing example_item))
   == (1 # 2) * (inject_Z (2 ^ (3 - 1)) - 1))%Q.
Proof.
  apply (add_one_total_backoff example_config example_repr always_failing example_item).
  - simpl. lia.
  - intros i _. discriminate.
Defined.

(** ** [concurrent_add] on a batch that is not empty *)

Lemma length_filter_le {X : Type} (f : X -> bool) (l : list X) :
  (List.length (filter f l) <= List.length l)%nat.
Proof. induction l as [|x l IH]; simpl; [lia|]. destruct (f x); simpl; lia. Qed.

Lemma filter_perm {X : Type} (f : X -> bool) (l l' : list X) :
  Permutation l l' -> Permutation (filter f l) (filter f l').
Proof.
  induction 1 as [|x l l' _ IH|x y l|l l' l'' _ IH1 _ IH2]; cbn [filter].
  - constructor.
  - destruct (f x); [now constructor|exact IH].
  - destruct (f x), (f y); try reflexivity. apply perm_swap.
  - now transitivity (filter f l').
Qed.

(** X5. On a batch that is not empty (the permit pool of positive size, so
    that every task gets its permit),
    [concurrent_add] starts one task per item, on the items in sorted order,
    every item of the batch being dispatched exactly once; the summary it
    logs has the batch size as total, the number of tasks that returned
    [True] as successes, and the rest as failures. *)
Theorem concurrent_add_dispatches_every_item (cfg : config) (py_repr : pyobj -> string)
    (wq : workqueue) (items : list (list (string * pyobj))) :
  items <> [] -> (0 < MAX_CONCURRENCY cfg)%Z ->
  exists successes failures,
    concurrent_add cfg py_repr wq items
    = Returns {| before_tasks := [LogProcessing (List.length items)];
                 tasks := map (add_one cfg py_repr wq) (sorted_items items);
                 after_tasks :=
                   [LogSummary successes failures (Z.of_nat (List.length items))] |}
    /\ Permutation items (sorted_items items)
    /\ successes
       = Z.of_nat (List.length
                     (filter (fun i => is_success (fst (add_one cfg py_repr wq i))) items))
    /\ (successes + failures = Z.of_nat (List.length items))%Z
    /\ (0 <= successes)%Z /\ (0 <= failures)%Z.
Proof.
  intros Hne HC.
  assert (HP : Permutation items (sorted_items items)) by apply sorted_by_perm.
  assert (Hlen : List.length (sorted_items items) = List.length items)
    by (symmetry; now apply Permutation_length).
  set (results := map (add_one cfg py_repr wq) (sorted_items items)).
  assert (Hres : List.length results = List.length items)
    by (unfold results; now rewrite length_map).
  exists (Z.of_nat (List.length (filter is_success (map fst results)))),
         (Z.of_nat (List.length results)
          - Z.of_nat (List.length (filter is_success (map fst results))))%Z.
  split; [|split; [exact HP|split; [|split; [|split]]]].
  - unfold concurrent_add. replace (MAX_CONCURRENCY cfg <? 0)%Z with false by lia.
    destruct items as [|i items']; [congruence|].
    fold results. rewrite Hlen, Hres. reflexivity.
  - f_equal. unfold results. rewrite map_map.
    assert (E : forall l, List.length (filter is_success
                            (map (fun x => fst (add_one cfg py_repr wq x)) l))
                          = List.length
                              (filter (fun i => is_success (fst (add_one cfg py_repr wq i))) l)).
    { induction l as [|x l IH]; [reflexivity|]. cbn [map filter].
      destruct (is_success (fst (add_one cfg py_repr wq x))); cbn [List.length]; now rewrite IH. }
    rewrite E. apply Permutation_length, Permutation_sym.
    now apply filter_perm.
  - rewrite Hres. lia.
  - lia.
  - pose proof (length_filter_le is_success (map fst results)) as H.
    rewrite length_map in H. lia.
Qed.

Lemma concurrent_add_dispatches_every_item_witness :
  exists successes failures,
    concurrent_add example_config example_repr failing_once
      (retrieve_items_for_queue "2026-01-01" proces_arguments)
    = Returns {| before_tasks := [LogProcessing 5];
                 tasks := map (add_one example_config example_repr failing_once)
                            (sorted_items (retrieve_items_for_queue "2026-01-01"
                                             proces_arguments));
                 after_tasks := [LogSummary successes failures 5] |}
    /\ (successes + failures = 5)%Z.
Proof.
  destruct (concurrent_add_dispatches_every_item example_config example_repr failing_once
              (retrieve_items_for_queue "2026-01-01" proces_arguments))
    as (s & f & Heq & _ & _ & Hsum & _).
  - discriminate.
  - simpl. lia.
  - exists s, f. split; [exact Heq|exact Hsum].
Defined.

(** ** [sorted]: the order of submission *)

Lemma insert_by_filter {X : Type} (key : X -> string) (k : string) (x : X) (l : list X) :
  filter (fun i => key i =? k) (insert_by key x l)
  = filter (fun i => key i =? k) (x :: l).
Proof.
  induction l as [|y l IH]; [reflexivity|].
  cbn [insert_by]. destruct (String.ltb (key y) (key x)) eqn:Hlt; [|reflexivity].
  cbn [filter] in *. rewrite IH.
  destruct (String.eqb_spec (key x) k) as [Hx|Hx]; [|reflexivity].
  destruct (String.eqb_spec (key y) k) as [Hy|Hy]; [|reflexivity].
  exfalso. unfold String.ltb in Hlt. rewrite Hx, Hy in Hlt.
  assert (E : String.compare k k = Eq).
  { pose proof (String.compare_antisym k k) as H.
    destruct (String.compare k k); simpl in H; congruence. }
  rewrite E in Hlt. discriminate.
Qed.

Lemma sorted_by_fixpoint {X : Type} (key : X -> string) (l : list X) :
  StronglySorted (le_key key) l -> sorted_by key l = l.
Proof.
  induction 1 as [|x l Hs IH Hx]; [reflexivity|].
  cbn [sorted_by]. rewrite IH. destruct l as [|y l]; [reflexivity|].
  cbn [insert_by]. inversion Hx as [|? ? Hxy _]; subst.
  unfold le_key, le_str in Hxy. now rewrite Hxy.
Qed.

(** X6. The order of submission: [sorted_items] puts the items in
    non-decreasing order of their sort keys, keeps the items that have the
    same sort key in the order they had in the batch (the sort is stable),
    and leaves a batch that is already sorted as it is. *)
Theorem sorted_items_stable (items : list (list (string * pyobj))) :
  StronglySorted (le_key item_key) (sorted_items items)
  /\ (forall k, filter (fun i => item_key i =? k) (sorted_items items)
                = filter (fun i => item_key i =? k) items)
  /\ sorted_items (sorted_items items) = sorted_items items.
Proof.
  unfold sorted_items. fold item_key. split; [apply sorted_by_sorted|]. split.
  - intros k. induction items as [|x items IH]; [reflexivity|].
    cbn [sorted_by]. rewrite insert_by_filter. cbn [filter]. now rewrite IH.
  - apply sorted_by_fixpoint, sorted_by_sorted.
Qed.

(** ** [insert_into_database] and the errors of [get_taxononmy] *)

(** X7. [insert_into_database] calls the stored procedure once per row, in
    row order, whatever the database answered for the rows before; a field
    that a row lacks is sent as the empty string; and it prints one failure
    line, with the error message, for each row that the database rejects. *)
Theorem insert_into_database_calls (db : database) (connection_string : option string)
    (stored_procedure : string) (data : list (list (string * string)))
    (case_type : string) :
  filter is_execute
    (insert_into_database db connection_string stored_procedure data case_type)
  = map (fun item => Execute connection_string stored_procedure
                       (taxonomy_params item case_type)) data
  /\ filter is_print
       (insert_into_database db connection_string stored_procedure data case_type)
     = map (fun item =>
              Print ("Failed to insert record: "
                     ++ error_message (db connection_string stored_procedure
                                         (taxonomy_params item case_type))))
         (filter (fun item =>
                    negb (success (db connection_string stored_procedure
                                     (taxonomy_params item case_type)))) data)
  /\ (forall item k,
        In k ["ID"; "Title"; "IdForTermStore"; "IdForTerm"; "IdForTermSet"; "Path"] ->
        dict_get k item = None ->
        dict_get k (taxonomy_params item case_type) = Some ("str", "")).
Proof.
  split; [|split].
  - induction data as [|item data IH]; [reflexivity|].
    cbn [insert_into_database map]. fold (taxonomy_params item case_type).
    cbn [filter is_execute app]. rewrite filter_app, IH.
    destruct (success _); reflexivity.
  - induction data as [|item data IH]; [reflexivity|].
    cbn [insert_into_database]. fold (taxonomy_params item case_type).
    cbn [filter is_print app]. rewrite filter_app, IH.
    destruct (success _); reflexivity.
  - intros item k Hk Hnone. unfold taxonomy_params, get_or_empty.
    cbn [In] in Hk.
    repeat (destruct Hk as [<-|Hk]; [rewrite Hnone; reflexivity|]).
    contradiction.
Qed.



(** X9. An exception of any other class raised while a page is fetched (a
    [ValueError] from the decoder, say) leaves [get_taxononmy]: nothing is
    printed for it, and nothing is sent to the database. *)
Theorem get_taxononmy_unhandled_error_escapes
    (pages : list (option (list (list (string * string))) * string))
    (bad : http_reply) (rest : list http_reply) (e : exn)
    (db : database) (credentials : list (string * option string))
    (case_type : string) (view_id : option string) (base_url : string)
    (username password : option string) :
  dict_get "go_api_username" credentials = Some username ->
  dict_get "go_api_password" credentials = Some password ->
  reply_error bad = Some e -> handled e = false ->
  exists t,
    get_taxononmy (map page_with_next pages ++ bad :: rest)%list db credentials case_type
      view_id base_url
    = Some (t, Raises e)
    /\ filter is_execute t = []
    /\ filter is_print t
       = map (fun url => Print ("Fetched data from: " ++ url))
           (removelast
              ((base_url ++ taxonomy_endpoint case_type
                ++ "?Paged=TRUE&p_ID=0&PageFirstRow=31&View=" ++ py_str view_id)
               :: map (fun pg => base_url ++ taxonomy_endpoint case_type ++ snd pg) pages)).
Proof.
  intros Hu Hp Hbad Hh. unfold get_taxononmy, subscript. rewrite Hu, Hp.
  cbn [bind ret app].
  assert (Hgen : forall url all_rows, truthy (Some url) = true ->
            exists t,
              fetch_pages (map page_with_next pages ++ bad :: rest)%list base_url
                (taxonomy_endpoint case_type) (Some url) all_rows
              = Some (t, Raises e)
              /\ filter is_execute t = []
              /\ filter is_print t
                 = map (fun url => Print ("Fetched data from: " ++ url))
                     (removelast
                        (url :: map (fun pg => base_url ++ taxonomy_endpoint case_type
                                               ++ snd pg) pages))).
  { clear Hu Hp. induction pages as [|pg pages IH]; intros url all_rows Hurl.
    - cbn [map app fetch_pages]. rewrite Hurl.
      exists [Post url [] None]. split; [|split; reflexivity].
      destruct bad; simpl in Hbad; try discriminate; injection Hbad as <-; reflexivity.
    - cbn [map app]. unfold page_with_next at 1. rewrite fetch_pages_step by exact Hurl.
      cbn [NextHref Row].
      destruct (IH (base_url ++ taxonomy_endpoint case_type ++ snd pg)
                  (all_rows ++ rows_of (fst pg))%list (cursor_truthy _ _ _))
        as (t & -> & Ht & Hpr).
      cbn [after_events]. eexists. split; [reflexivity|]. split.
      + rewrite filter_app, Ht. reflexivity.
      + rewrite filter_app, Hpr. reflexivity. }
  edestruct Hgen as (t & -> & Ht & Hpr).
  { simpl. apply negb_true_iff, String.eqb_neq, append_nonempty.
    unfold taxonomy_endpoint. simpl. discriminate. }
  exists t. cbn [bind try_except].
  destruct e; try discriminate; cbn [handle_taxonomy raise]; rewrite app_nil_r; auto.
Qed.

Lemma get_taxononmy_unhandled_error_escapes_witness :
  exists t,
    get_taxononmy
      (map page_with_next example_pages ++ JsonFails (ValueError "Expecting value") :: [])%list
      rejecting_database example_credentials "emnesager" (Some "view") "https://go"
    = Some (t, Raises (ValueError "Expecting value"))
    /\ filter is_execute t = [].
Proof.
  destruct (get_taxononmy_unhandled_error_escapes example_pages
              (JsonFails (ValueError "Expecting value")) [] (ValueError "Expecting value")
              rejecting_database example_credentials "emnesager" (Some "view") "https://go"
              (Some "svc") (Some "secret") eq_refl eq_refl eq_refl eq_refl)
    as (t & Heq & Ht & _).
  exists t. split; assumption.
Defined.

(** ** The tree that [_get_child_terms] returns, and its insertion *)

Lemma preorder_node (attrs : list (string * option string)) (cs : list term_dict) :
  preorder (TermDict attrs (Some cs)) = TermDict attrs (Some cs) :: flat_map preorder cs.
Proof.
  reflexivity.
Qed.

Lemma flat_map_flat_map {X Y Z : Type} (f : Y -> list Z) (g : X -> list Y) (l : list X) :
  flat_map f (flat_map g l) = flat_map (fun x => flat_map f (g x)) l.
Proof.
  induction l as [|x l IH]; [reflexivity|]. cbn [flat_map].
  now rewrite flat_map_app, IH.
Qed.

(** X11. [_insert_term_data_to_sql] sends nothing for [None]; for a dict it
    calls the stored procedure once for every node that is not an empty dict,
    parents before children and children in order, with the parameters of
    that node; an empty dict among the children is passed over. *)
Theorem insert_term_data_calls (db : database) (sql_conn_string : option string)
    (term_set_uuid sql_stored_procedure : string) (d : term_dict) :
  _insert_term_data_to_sql db None sql_conn_string term_set_uuid sql_stored_procedure = []
  /\ _insert_term_data_to_sql db (Some d) sql_conn_string term_set_uuid sql_stored_procedure
     = map (upsert_of sql_conn_string term_set_uuid sql_stored_procedure)
         (filter dict_bool (preorder d)).
Proof.
  split; [reflexivity|]. cbn [_insert_term_data_to_sql].
  induction d as [attrs children IH] using term_dict_nested_ind.
  destruct children as [cs|].
  - rewrite preorder_node. cbn [insert_term_dict filter].
    replace (dict_bool (TermDict attrs (Some cs))) with true by now destruct attrs.
    cbn [map]. f_equal.
    induction IH as [|c later Hc _ IHlater]; [reflexivity|].
    cbn [flat_map]. rewrite filter_app, map_app, <- IHlater, <- Hc. reflexivity.
  - cbn [preorder insert_term_dict filter].
    destruct (dict_bool (TermDict attrs None)); reflexivity.
Qed.

Lemma opt_eqb_refl (a : option string) : opt_eqb a a = true.
Proof. destruct a; simpl; [apply String.eqb_refl|reflexivity]. Qed.

Lemma forallb_snoc {X : Type} (f : X -> bool) (l : list X) (x : X) :
  forallb f (l ++ [x])%list = forallb f l && f x.
Proof. rewrite forallb_app. simpl. now rewrite andb_true_r. Qed.

Section BuiltTree.
Variables (api_client : term_service) (headers : list (string * string))
          (term_set_uuid base_url case_type : string).

Let fetch (fuel : nat) (parent_uuid : option string) : run (option term_dict) :=
  _get_child_terms fuel api_client headers parent_uuid term_set_uuid base_url case_type.

Lemma requests_of_node (attrs : list (string * option string)) (cs : list term_dict) :
  requests_of headers term_set_uuid base_url case_type (TermDict attrs (Some cs))
  = request_for headers term_set_uuid base_url case_type (attr (TermDict attrs (Some cs)) "Id")
    :: flat_map (requests_of headers term_set_uuid base_url case_type) cs.
Proof.
  unfold requests_of. rewrite preorder_node. cbn [flat_map children_of app].
  now rewrite flat_map_flat_map.
Qed.

Lemma each_node_built (recurse : option string -> run (option term_dict))
    (parent : option string) :
  (forall id t tree, recurse id = Some (t, Returns (Some tree)) -> built headers term_set_uuid base_url case_type id t tree) ->
  forall content acc t children,
    each_node recurse parent content acc = Some (t, Returns children) ->
    exists new,
      children = (acc ++ new)%list
      /\ forallb (well_linked parent) new = true
      /\ t = flat_map (requests_of headers term_set_uuid base_url case_type) new.
Proof.
  intros Hrec. induction content as [|r later IH]; intros acc t children H.
  - injection H as <- <-. exists []. now rewrite app_nil_r.
  - cbn [each_node] in H.
    destruct (truthy (Nm r) && truthy (Id r)) eqn:Hc.
    + apply andb_true_iff in Hc as [Hn Hi].
      destruct (Nm r) as [name|] eqn:HNm; [|discriminate].
      destruct (Id r) as [id|] eqn:HId; [|discriminate].
      cbn [truthy] in Hn, Hi.
      apply bind_returns_inv in H as (t1 & child & t2 & Hchild & H & ->).
      apply IH in H as (new & -> & Hl & ->).
      exists (child :: new). rewrite <- app_assoc. split; [reflexivity|].
      destruct (has_children r).
      * apply bind_returns_inv in Hchild as (t3 & sub & t4 & Hsub & Hchild & ->).
        apply bind_returns_inv in Hchild as (t5 & cs & t6 & Hcs & Hchild & ->).
        injection Hchild as <- <-.
        destruct sub as [sub|]; [|discriminate].
        apply Hrec in Hsub as (cs' & -> & Hl' & ->).
        injection Hcs as <- <-.
        rewrite !app_nil_r. split.
        -- cbn [forallb well_linked String.eqb Ascii.eqb Bool.eqb andb].
           now rewrite Hn, Hi, opt_eqb_refl, Hl', Hl.
        -- cbn [flat_map]. rewrite !requests_of_node. reflexivity.
      * injection Hchild as <- <-. split.
        -- cbn [forallb well_linked String.eqb Ascii.eqb Bool.eqb andb].
           now rewrite Hn, Hi, opt_eqb_refl, Hl.
        -- reflexivity.
    + now apply IH.
Qed.

Lemma fetch_built (fuel : nat) :
  forall parent t tree, fetch fuel parent = Some (t, Returns (Some tree)) -> built headers term_set_uuid base_url case_type parent t tree.
Proof.
  unfold fetch. induction fuel as [|fuel IH]; intros parent t tree H; [discriminate|].
  cbn [_get_child_terms] in H.
  apply bind_returns_inv in H as (t1 & reply & t2 & Hpost & H & ->).
  unfold post_data in Hpost.
  apply bind_returns_inv in Hpost as (t0 & [] & t0' & Hemit & Hpost & ->).
  injection Hemit as <-.
  destruct (api_client _ headers _) as [e|jd] eqn:Hapi.
  - destruct e; try discriminate.
    apply bind_returns_inv in Hpost as (? & [] & ? & _ & Hpost & ->).
    injection Hpost as <- <-. discriminate.
  - injection Hpost as <- <-.
    destruct jd as [[content|]|]; try discriminate.
    apply bind_returns_inv in H as (t3 & children & t4 & Heach & H & ->).
    injection H as <- <-.
    eapply each_node_built in Heach as (new & -> & Hl & ->); [|exact IH].
    exists new. rewrite requests_of_node, !app_nil_r. repeat split; auto.
Qed.

Lemma well_linked_nonempty (parent : option string) (d : term_dict) :
  well_linked parent d = true -> forallb dict_bool (preorder d) = true.
Proof.
  revert parent. induction d as [attrs children IH] using term_dict_nested_ind.
  intros parent H.
  destruct attrs as [|[k1 [name|]] [|[k2 [id|]] [|[k3 p] [|]]]]; try discriminate.
  cbn [well_linked] in H.
  repeat (apply andb_true_iff in H as [H ?]).
  destruct children as [cs|]; [|reflexivity].
  rewrite preorder_node. cbn [forallb dict_bool andb].
  match goal with Hcs : forallb (well_linked _) cs = true |- _ => revert Hcs end.
  induction IH as [|c later Hc _ IHlater]; [reflexivity|].
  cbn [forallb flat_map]. intros Hcs. apply andb_true_iff in Hcs as [Hc1 Hc2].
  rewrite forallb_app, (Hc _ Hc1), IHlater; auto.
Qed.
End BuiltTree.

(** X12. In a tree that [_get_child_terms] returns, the root is the dict
    [{"Id": parent_uuid, "Children": [...]}] and every node below it has
    exactly the keys ["Name"], ["Id"], ["ParentId"] (and ["Children"] when
    its subtree was fetched), a name and an id that are not empty, and under
    ["ParentId"] the id of the node it hangs from. *)
Theorem get_child_terms_tree_is_linked (fuel : nat) (api_client : term_service)
    (headers : list (string * string)) (parent_uuid : option string)
    (term_set_uuid base_url case_type : string) (t : list io_event) (tree : term_dict) :
  _get_child_terms fuel api_client headers parent_uuid term_set_uuid base_url case_type
  = Some (t, Returns (Some tree)) ->
  exists children,
    tree = TermDict [("Id", parent_uuid)] (Some children)
    /\ forallb (well_linked parent_uuid) children = true.
Proof.
  intros H. apply fetch_built in H as (cs & Htree & Hl & _). now exists cs.
Qed.

Lemma get_child_terms_tree_is_linked_witness :
  exists children,
    example_tree = TermDict [("Id", Some "root")] (Some children)
    /\ forallb (well_linked (Some "root")) children = true.
Proof.
  exact (get_child_terms_tree_is_linked 2 example_service [] (Some "root") "ts" "https://go"
           "emnesager" _ example_tree eq_refl).
Defined.

(** X13. When [_get_child_terms] returns a tree, it has posted exactly one
    request for each node of that tree that has a ["Children"] key -- the
    root and every node that declared children -- and nothing else, in the
    order in which these nodes come when parents are taken before children
    and children in the order of the replies. *)
Theorem get_child_terms_requests (fuel : nat) (api_client : term_service)
    (headers : list (string * string)) (parent_uuid : option string)
    (term_set_uuid base_url case_type : string) (t : list io_event) (tree : term_dict) :
  _get_child_terms fuel api_client headers parent_uuid term_set_uuid base_url case_type
  = Some (t, Returns (Some tree)) ->
  t = requests_of headers term_set_uuid base_url case_type tree.
Proof.
  intros H. now apply fetch_built in H as (cs & _ & _ & Ht).
Qed.

Lemma get_child_terms_requests_witness :
  exists t,
    _get_child_terms 2 example_service [] (Some "root") "ts" "https://go" "emnesager"
    = Some (t, Returns (Some example_tree))
    /\ t = requests_of [] "ts" "https://go" "emnesager" example_tree
    /\ List.length t = 2%nat.
Proof.
  eexists. split; [reflexivity|]. split; [|reflexivity].
  exact (get_child_terms_requests 2 example_service [] (Some "root") "ts" "https://go"
           "emnesager" _ example_tree eq_refl).
Defined.

Lemma fetched_tree_nonempty (fuel : nat) (api_client : term_service)
    (headers : list (string * string)) (parent_uuid : option string)
    (term_set_uuid base_url case_type : string) (t : list io_event) (tree : term_dict)
    (db : database) (sql_conn_string : option string) (sql_stored_procedure : string) :
  _get_child_terms fuel api_client headers parent_uuid term_set_uuid base_url case_type
  = Some (t, Returns (Some tree)) ->
  _insert_term_data_to_sql db (Some tree) sql_conn_string term_set_uuid sql_stored_procedure
  = map (upsert_of sql_conn_string term_set_uuid sql_stored_procedure) (preorder tree).
Proof.
  intros H. apply fetch_built in H as (cs & -> & Hl & _).
  cbn [_insert_term_data_to_sql]. apply insert_term_dict_preorder.
  rewrite preorder_node. cbn [forallb dict_bool andb].
  induction cs as [|c cs IH]; [reflexivity|].
  cbn [forallb flat_map] in *. apply andb_true_iff in Hl as [Hc Hcs].
  rewrite forallb_app, (well_linked_nonempty _ _ Hc), IH; auto.
Qed.

(** X14. Inserting a tree that [_get_child_terms] returned calls the stored
    procedure exactly once for every node of the tree, the root included,
    parents before children and children in order: no node of a fetched tree
    is passed over. *)
Theorem fetched_tree_is_inserted_whole (fuel : nat) (api_client : term_service)
    (headers : list (string * string)) (parent_uuid : option string)
    (term_set_uuid base_url case_type : string) (t : list io_event) (tree : term_dict)
    (db : database) (sql_conn_string : option string) (sql_stored_procedure : string) :
  _get_child_terms fuel api_client headers parent_uuid term_set_uuid base_url case_type
  = Some (t, Returns (Some tree)) ->
  _insert_term_data_to_sql db (Some tree) sql_conn_string term_set_uuid sql_stored_procedure
  = map (upsert_of sql_conn_string term_set_uuid sql_stored_procedure) (preorder tree).
Proof. apply fetched_tree_nonempty. Qed.

Lemma fetched_tree_is_inserted_whole_witness :
  _insert_term_data_to_sql rejecting_database (Some example_tree) (Some "Server=db") "ts"
    "GO_Departments_Insert"
  = map (upsert_of (Some "Server=db") "ts" "GO_Departments_Insert") (preorder example_tree).
Proof.
  exact (fetched_tree_is_inserted_whole 2 example_service [] (Some "root") "ts" "https://go"
           "emnesager" _ example_tree rejecting_database (Some "Server=db")
           "GO_Departments_Insert" eq_refl).
Defined.

(** X15. [_get_child_terms] returns [None] in two cases only, both about the
    request for [parent_uuid] itself: the request fails with a
    [RequestException], which is printed, or the decoded reply has no ["d"]
    or no ["Content"] in it, and then nothing is printed at all.  A failure
    further down the tree never gives [None]. *)
Theorem get_child_terms_returns_none (fuel : nat) (api_client : term_service)
    (headers : list (string * string)) (parent_uuid : option string)
    (term_set_uuid base_url case_type : string) (t : list io_event) :
  let url := child_terms_url (negb (truthy parent_uuid)) base_url case_type in
  let body := child_terms_body (negb (truthy parent_uuid)) parent_uuid term_set_uuid in
  _get_child_terms (S fuel) api_client headers parent_uuid term_set_uuid base_url case_type
  = Some (t, Returns None)
  <-> (exists msg,
          api_client url headers body = inl (RequestException msg)
          /\ t = [Post url headers (Some body);
                  Print ("Request failed. Error message: " ++ msg)])
      \/ ((api_client url headers body = inr None
           \/ api_client url headers body = inr (Some None))
          /\ t = [Post url headers (Some body)]).
Proof.
  intros url body. cbn [_get_child_terms]. fold url body. unfold post_data.
  split.
  - intros H.
    destruct (api_client url headers body) as [e|[[content|]|]] eqn:Hapi.
    + destruct e; cbn [emit raise bind ret app] in H; try discriminate.
      injection H as <-. left. eauto.
    + cbn [emit bind ret app] in H.
      destruct (each_node _ parent_uuid content []) as [[t' [cs|e]]|];
        cbn [bind ret] in H; discriminate.
    + cbn [emit bind ret app] in H. injection H as <-. right. auto.
    + cbn [emit bind ret app] in H. injection H as <-. right. auto.
  - intros [(msg & -> & ->)|([-> | ->] & ->)]; reflexivity.
Qed.

(** ** [pull_term_data_from_go_to_sql] *)

(** X16. With the three credentials present and a form digest, when the tree
    fetch returns a tree, [pull_term_data_from_go_to_sql] has first posted
    all the requests of the fetch, with the digest in the header
    ["X-RequestDigest"], and only then called the stored procedure, once for
    every node of the tree, parents first; it returns normally. *)
Theorem pull_term_data_fetches_then_inserts (fuel : nat) (api_client : term_service)
    (form_digest : option string) (db : database)
    (credentials : list (string * option string)) (base_url case_type : string)
    (start_term_id : option string) (sql_stored_procedure term_set_uuid : string)
    (username password conn : option string) (t : list io_event) (tree : term_dict) :
  let headers := [("Content-Type", "application/json; charset=UTF-8");
                  ("X-RequestDigest", py_str form_digest)] in
  dict_get "go_api_username" credentials = Some username ->
  dict_get "go_api_password" credentials = Some password ->
  dict_get "sql_conn_string" credentials = Some conn ->
  truthy form_digest = true ->
  _get_child_terms fuel api_client headers start_term_id term_set_uuid base_url case_type
  = Some (t, Returns (Some tree)) ->
  pull_term_data_from_go_to_sql fuel api_client form_digest db credentials base_url
    case_type start_term_id sql_stored_procedure term_set_uuid
  = Some ((requests_of headers term_set_uuid base_url case_type tree
           ++ map (upsert_of conn term_set_uuid sql_stored_procedure) (preorder tree))%list,
          Returns tt).
Proof.
  intros headers Hu Hp Hc Hd Hfetch.
  unfold pull_term_data_from_go_to_sql, subscript. rewrite Hu, Hp, Hd.
  cbn [bind ret app]. fold headers. rewrite Hfetch. cbn [bind]. rewrite Hc.
  cbn [bind ret app].
  rewrite (fetched_tree_nonempty fuel api_client headers start_term_id term_set_uuid
             base_url case_type t tree db conn sql_stored_procedure Hfetch).
  apply fetch_built in Hfetch as (cs & _ & _ & ->). reflexivity.
Qed.

Lemma pull_term_data_fetches_then_inserts_witness :
  pull_term_data_from_go_to_sql 2 example_service (Some "0x1F2E") rejecting_database
    example_credentials "https://go" "emnesager" (Some "root") "GO_Departments_Insert" "ts"
  = Some ((requests_of [("Content-Type", "application/json; charset=UTF-8");
                        ("X-RequestDigest", "0x1F2E")] "ts" "https://go" "emnesager"
             example_tree
           ++ map (upsert_of (Some "Server=db") "ts" "GO_Departments_Insert")
                (preorder example_tree))%list,
          Returns tt).
Proof.
  exact (pull_term_data_fetches_then_inserts 2 example_service (Some "0x1F2E")
           rejecting_database example_credentials "https://go" "emnesager" (Some "root")
           "GO_Departments_Insert" "ts" (Some "svc") (Some "secret") (Some "Server=db")
           _ example_tree eq_refl eq_refl eq_refl eq_refl eq_refl).
Defined.

(** X17. [pull_term_data_from_go_to_sql], the two API credentials being
    present: without a form digest it does nothing at all and returns
    normally; with one, an exception of the tree fetch leaves it as it is
    (nothing is caught here), and a missing connection string is noticed only
    after the whole fetch, as a [KeyError] that leaves the function before
    anything is inserted. *)
Theorem pull_term_data_edges (fuel : nat) (api_client : term_service)
    (form_digest : option string) (db : database)
    (credentials : list (string * option string)) (base_url case_type : string)
    (start_term_id : option string) (sql_stored_procedure term_set_uuid : string)
    (username password : option string) :
  let headers := [("Content-Type", "application/json; charset=UTF-8");
                  ("X-RequestDigest", py_str form_digest)] in
  let pull :=
    pull_term_data_from_go_to_sql fuel api_client form_digest db credentials base_url
      case_type start_term_id sql_stored_procedure term_set_uuid in
  dict_get "go_api_username" credentials = Some username ->
  dict_get "go_api_password" credentials = Some password ->
  (truthy form_digest = false -> pull = Some ([], Returns tt))
  /\ (truthy form_digest = true ->
      forall t e,
        _get_child_terms fuel api_client headers start_term_id term_set_uuid base_url
          case_type = Some (t, Raises e) ->
        pull = Some (t, Raises e))
  /\ (truthy form_digest = true ->
      forall t result,
        _get_child_terms fuel api_client headers start_term_id term_set_uuid base_url
          case_type = Some (t, Returns result) ->
        dict_get "sql_conn_string" credentials = None ->
        pull = Some (t, Raises (KeyError "sql_conn_string"))).
Proof.
  intros headers pull Hu Hp. subst pull.
  unfold pull_term_data_from_go_to_sql, subscript. rewrite Hu, Hp.
  cbn [bind ret app]. fold headers. split; [|split].
  - intros ->. reflexivity.
  - intros -> t e ->. reflexivity.
  - intros -> t result -> ->. cbn [bind raise]. now rewrite app_nil_r.
Qed.

Lemma pull_term_data_edges_witness :
  pull_term_data_from_go_to_sql 2 example_service (Some "0x1F2E") rejecting_database
    [("go_api_username", Some "svc"); ("go_api_password", Some "secret")]
    "https://go" "emnesager" (Some "root") "GO_Departments_Insert" "ts"
  = Some (requests_of [("Content-Type", "application/json; charset=UTF-8");
                       ("X-RequestDigest", "0x1F2E")] "ts" "https://go" "emnesager"
            example_tree,
          Raises (KeyError "sql_conn_string")).
Proof.
  exact (proj2 (proj2
    (pull_term_data_edges 2 example_service (Some "0x1F2E") rejecting_database
       [("go_api_username", Some "svc"); ("go_api_password", Some "secret")]
       "https://go" "emnesager" (Some "root") "GO_Departments_Insert" "ts"
       (Some "svc") (Some "secret") eq_refl eq_refl))
    eq_refl _ (Some example_tree) eq_refl eq_refl).
Defined.

(** ** [get_form_digest]: what the pattern finds *)

Lemma append_assoc (a b c : string) : (a ++ b) ++ c = a ++ (b ++ c).
Proof. induction a as [|x a IH]; simpl; [reflexivity|now rewrite IH]. Qed.

Lemma strip_prefix_app (p s : string) : strip_prefix p (p ++ s) = Some s.
Proof.
  induction p as [|c p IH]; simpl; [now destruct s|].
  now rewrite Ascii.eqb_refl.
Qed.

Lemma strip_prefix_some (p s r : string) : strip_prefix p s = Some r -> s = p ++ r.
Proof.
  revert s. induction p as [|c p IH]; intros [|d s]; simpl; try congruence.
  destruct (Ascii.eqb_spec c d) as [->|]; [|discriminate].
  intros H. now rewrite (IH _ H).
Qed.

Lemma quoted_run_app (v post : string) :
  has_quote v = false -> quoted_run (v ++ String dquote post) = Some v.
Proof.
  induction v as [|c v IH]; simpl; [reflexivity|].
  intros H. apply orb_false_iff in H as [Hc Hv]. now rewrite Hc, (IH Hv).
Qed.

Lemma quoted_run_some (s v : string) :
  quoted_run s = Some v ->
  has_quote v = false /\ exists post, s = v ++ String dquote post.
Proof.
  revert v. induction s as [|c s IH]; intros v; simpl; [discriminate|].
  destruct (Ascii.eqb_spec c dquote) as [->|Hc].
  - intros [= <-]. split; [reflexivity|]. now exists s.
  - destruct (quoted_run s) as [w|]; [|discriminate].
    intros [= <-]. destruct (IH w eq_refl) as (Hw & post & ->).
    split; [|now exists post].
    simpl. rewrite Hw. apply Ascii.eqb_neq in Hc. now rewrite Hc.
Qed.

Lemma match_digest_here_some (s v : string) :
  match_digest_here s = Some v ->
  v <> "" /\ has_quote v = false
  /\ exists post, s = digest_marker ++ v ++ String dquote post.
Proof.
  unfold match_digest_here.
  destruct (strip_prefix digest_marker s) as [rest|] eqn:Hp; [|discriminate].
  destruct (quoted_run rest) as [w|] eqn:Hq; [|discriminate].
  destruct (String.eqb_spec w "") as [|Hw]; [discriminate|].
  intros [= <-]. apply strip_prefix_some in Hp.
  apply quoted_run_some in Hq as (Hnq & post & ->).
  repeat split; auto. now exists post.
Qed.

Lemma match_digest_here_app (v post : string) :
  v <> "" -> has_quote v = false ->
  match_digest_here (digest_marker ++ v ++ String dquote post) = Some v.
Proof.
  intros Hv Hq. unfold match_digest_here.
  rewrite strip_prefix_app, quoted_run_app by exact Hq.
  apply String.eqb_neq in Hv. now rewrite Hv.
Qed.

Lemma search_digest_some (s v : string) :
  search_digest s = Some v ->
  v <> "" /\ has_quote v = false
  /\ exists pre post, s = pre ++ digest_marker ++ v ++ String dquote post.
Proof.
  induction s as [|c s IH]; cbn [search_digest].
  - destruct (match_digest_here "") as [w|] eqn:Hm; [|discriminate].
    intros [= <-]. apply match_digest_here_some in Hm as (? & ? & post & Hs).
    repeat split; auto. now exists "", post.
  - destruct (match_digest_here (String c s)) as [w|] eqn:Hm.
    + intros [= <-]. apply match_digest_here_some in Hm as (? & ? & post & Hs).
      repeat split; auto. now exists "", post.
    + intros H. apply IH in H as (? & ? & pre & post & ->).
      repeat split; auto. now exists (String c pre), post.
Qed.

Lemma search_digest_finds (pre v post : string) :
  v <> "" -> has_quote v = false ->
  exists w, search_digest (pre ++ digest_marker ++ v ++ String dquote post) = Some w.
Proof.
  intros Hv Hq. induction pre as [|c pre IH].
  - exists v. cbn [append].
    destruct (digest_marker ++ v ++ String dquote post) eqn:E;
      cbn [search_digest]; rewrite <- E, match_digest_here_app; auto.
  - cbn [append search_digest].
    destruct (match_digest_here _) as [w|]; [now exists w|exact IH].
Qed.

Lemma quote_split_unique (v w post post' : string) :
  has_quote v = false -> has_quote w = false ->
  v ++ String dquote post = w ++ String dquote post' -> v = w.
Proof.
  revert w. induction v as [|c v IH]; intros [|d w]; simpl; intros Hv Hw H.
  - reflexivity.
  - injection H as <- _. rewrite Ascii.eqb_refl in Hw. discriminate.
  - injection H as -> _. rewrite Ascii.eqb_refl in Hv. discriminate.
  - injection H as <- H.
    apply orb_false_iff in Hv as [_ Hv]. apply orb_false_iff in Hw as [_ Hw].
    f_equal. now apply IH.
Qed.

(** X18. The form digest that the page embeds comes back: when the response
    text has the marker [formDigestValue":"] at one place only, followed by a
    value that is not empty and has no quote in it and then by a quote,
    [get_form_digest] posts once to the page and returns that value. *)
Theorem get_form_digest_extracts (page : digest_page) (url pre value post : string) :
  page url = inr (pre ++ digest_marker ++ value ++ String dquote post) ->
  value <> "" -> has_quote value = false ->
  (forall a b, pre ++ digest_marker ++ value ++ String dquote post = a ++ digest_marker ++ b ->
               a = pre) ->
  get_form_digest page url
  = ([Post url [("Content-Type", "application/json; charset=UTF-8")] None],
     Finished (Some value)).
Proof.
  intros Hpage Hv Hq Huniq. unfold get_form_digest. rewrite Hpage.
  destruct (search_digest_finds pre value post Hv Hq) as [w Hw]. rewrite Hw.
  do 3 f_equal.
  apply search_digest_some in Hw as (_ & Hwq & pre' & post' & Heq).
  assert (pre' = pre) by (apply (Huniq pre' (w ++ String dquote post')); exact Heq).
  subst pre'. apply append_cancel_l in Heq. apply append_cancel_l in Heq.
  symmetry. eapply quote_split_unique; eauto.
Qed.

Lemma get_form_digest_extracts_witness :
  get_form_digest
    (fun _ => inr ("{" ++ digest_marker ++ "0x1F2E,01 Jan" ++ String dquote "}"))
    "https://go/emnesager/_layouts/15/termstoremanager.aspx"
  = ([Post "https://go/emnesager/_layouts/15/termstoremanager.aspx"
        [("Content-Type", "application/json; charset=UTF-8")] None],
     Finished (Some "0x1F2E,01 Jan")).
Proof.
  apply (get_form_digest_extracts _ _ "{" "0x1F2E,01 Jan" "}").
  - reflexivity.
  - discriminate.
  - reflexivity.
  - intros a b H. cbv in H.
    repeat (destruct a as [|? a]; cbv in H;
            [try discriminate H; try reflexivity
            |try discriminate H; injection H as ? H; subst]).
    all: try reflexivity; try discriminate.
Defined.

(** X19. A digest that [get_form_digest] returns is never empty and has no
    quote in it, and it stands in the text of the response right after the
    marker and before a quote; so the test [if form_digest_value:] of the
    caller fails only when [get_form_digest] returned [None]. *)
Theorem get_form_digest_value (page : digest_page) (url : string)
    (t : list io_event) (value : string) :
  get_form_digest page url = (t, Finished (Some value)) ->
  truthy (Some value) = true
  /\ has_quote value = false
  /\ exists pre post,
       page url = inr (pre ++ digest_marker ++ value ++ String dquote post).
Proof.
  unfold get_form_digest.
  destruct (page url) as [e|text]; [destruct e; discriminate|].
  destruct (search_digest text) as [w|] eqn:Hs; [|discriminate].
  intros [= _ <-]. apply search_digest_some in Hs as (Hw & Hq & pre & post & ->).
  split; [|split; [exact Hq|now exists pre, post]].
  simpl. now apply negb_true_iff, String.eqb_neq.
Qed.

Lemma get_form_digest_value_witness :
  truthy (Some "0x1F2E,01 Jan") = true
  /\ has_quote "0x1F2E,01 Jan" = false
  /\ exists pre post,
       inr ("{" ++ digest_marker ++ "0x1F2E,01 Jan" ++ String dquote "}")
       = @inr exn string (pre ++ digest_marker ++ "0x1F2E,01 Jan" ++ String dquote post).
Proof.
  exact (get_form_digest_value
           (fun _ => inr ("{" ++ digest_marker ++ "0x1F2E,01 Jan" ++ String dquote "}"))
           "https://go/emnesager/_layouts/15/termstoremanager.aspx" _ "0x1F2E,01 Jan"
           eq_refl).
Defined.

(** X20. When the digest cannot be had, the two API credentials being
    present, no term is requested and nothing is inserted: if the request for
    the page fails with a [RequestException], the failure is printed and the
    pull ends normally; if the page comes back without the marker, an
    [AttributeError] leaves the pull. *)
Theorem pull_term_data_without_digest (fuel : nat) (page : digest_page)
    (api_client : term_service) (db : database)
    (credentials : list (string * option string)) (base_url case_type : string)
    (start_term_id : option string) (sql_stored_procedure term_set_uuid : string)
    (username password : option string) :
  let url := base_url ++ "/" ++ case_type ++ "/_layouts/15/termstoremanager.aspx" in
  let post := Post url [("Content-Type", "application/json; charset=UTF-8")] None in
  let pull :=
    pull_term_data_with_digest fuel page api_client db credentials base_url case_type
      start_term_id sql_stored_procedure term_set_uuid in
  dict_get "go_api_username" credentials = Some username ->
  dict_get "go_api_password" credentials = Some password ->
  (forall msg, page url = inl (RequestException msg) ->
     pull = Some ([post; Print ("Request failed. Error message: " ++ msg)], Finished tt))
  /\ (forall text, page url = inr text -> ~ has_marker text ->
        pull = Some ([post],
                     Crashed (AttributeError "'NoneType' object has no attribute 'group'"))).
Proof.
  intros url post pull Hu Hp. subst pull.
  unfold pull_term_data_with_digest. rewrite Hu, Hp. fold url.
  unfold get_form_digest. split.
  - intros msg ->. fold post.
    unfold pull_term_data_from_go_to_sql, subscript. rewrite Hu, Hp.
    cbn [bind ret app truthy]. reflexivity.
  - intros text -> Hno. fold post.
    destruct (search_digest text) as [w|] eqn:Hs; [|reflexivity].
    exfalso. apply Hno.
    apply search_digest_some in Hs as (_ & _ & pre & post' & ->).
    now exists pre, (w ++ String dquote post').
Qed.

Lemma pull_term_data_without_digest_witness :
  pull_term_data_with_digest 2 (fun _ => inl (RequestException "401 Unauthorized"))
    example_service rejecting_database example_credentials "https://go" "emnesager"
    (Some "root") "GO_Departments_Insert" "ts"
  = Some ([Post "https://go/emnesager/_layouts/15/termstoremanager.aspx"
             [("Content-Type", "application/json; charset=UTF-8")] None;
           Print "Request failed. Error message: 401 Unauthorized"],
          Finished tt).
Proof.
  exact (proj1
    (pull_term_data_without_digest 2 (fun _ => inl (RequestException "401 Unauthorized"))
       example_service rejecting_database example_credentials "https://go" "emnesager"
       (Some "root") "GO_Departments_Insert" "ts" (Some "svc") (Some "secret")
       eq_refl eq_refl)
    "401 Unauthorized" eq_refl).
Defined.

(** ** [add_one]: the result and the log *)

Lemma attempt_loop_result_and_log (cfg : config) (wq : workqueue) (data : pyobj)
    (reference : string) (attempts : list Z) :
  let (r, t) := attempt_loop cfg wq data reference attempts in
  List.length (filter is_log_added t) = (if is_success r then 1 else 0)%nat
  /\ List.length (filter is_log_failed t)
     = (match r with Some false => 1 | _ => 0 end)%nat.
Proof.
  induction attempts as [|a l IH]; cbn [attempt_loop]; [split; reflexivity|].
  destruct (wq data reference a); [|split; reflexivity].
  destruct (MAX_RETRIES cfg <=? a)%Z; [split; reflexivity|].
  destruct (attempt_loop cfg wq data reference l) as [r t]. exact IH.
Qed.

(** X21. The log of a task tells its result: [add_one] logs "Added item ..."
    exactly once when it returns [True] and never otherwise, and logs
    "Failed to add item ..." exactly once when it returns [False] and never
    otherwise; a task that returns [None] logs neither. *)
Theorem add_one_result_matches_log (cfg : config) (py_repr : pyobj -> string)
    (wq : workqueue) (it : list (string * pyobj)) :
  List.length (filter is_log_added (snd (add_one cfg py_repr wq it)))
  = (if is_success (fst (add_one cfg py_repr wq it)) then 1 else 0)%nat
  /\ List.length (filter is_log_failed (snd (add_one cfg py_repr wq it)))
     = (match fst (add_one cfg py_repr wq it) with Some false => 1 | _ => 0 end)%nat.
Proof.
  unfold add_one.
  pose proof (attempt_loop_result_and_log cfg wq (PyDict [("item", PyDict it)])
                (reference_of py_repr it) (py_range 1 (MAX_RETRIES cfg + 1))) as H.
  destruct (attempt_loop cfg wq _ _ _) as [r t]. cbn [fst snd].
  cbn [filter is_log_added is_log_failed]. rewrite !filter_app, !length_app.
  cbn [filter is_log_added is_log_failed List.length]. rewrite !Nat.add_0_r. exact H.
Qed.
